(** * Change-capture-and-propagation pipeline: producer (TiDBCDCService)
      and consumer (KafkaConsumerService)

    A shallow embedding of the CDC poller/publisher and of the Kafka
    dispatcher/classifier, with the properties the specification states
    about them.

    Conventions of the embedding:
    - JavaScript values are the inductive [JS.value]; an object carries its
      reference identity, because [===] on objects compares references;
    - a call that can fail ([producer.send], [db.execute], [JSON.parse],
      a member access on [null]) is explicit: the environment decides the
      outcome, the code's [try]/[catch] blocks are the combinator
      [try_catch];
    - [JSON.stringify] of an envelope is not rendered as text: a message
      value is the envelope object itself. *)

From Stdlib Require Import String List ZArith Bool Lia Sorted DecimalString.
From Stdlib Require Import Permutation.
Import ListNotations.
Open Scope string_scope.
Open Scope Z_scope.

(* ================================================================== *)
(** * JavaScript values *)
(* ================================================================== *)

Module JS.

(** Numbers that occur in the pipeline are integers (row ids, offsets,
    epoch milliseconds). [VObj ref fields]: [ref] is the identity of
    the object, [fields] its own properties in insertion order. *)
#[warnings="-register-all"]
Inductive value : Type :=
| VUndefined
| VNull
| VBool (b : bool)
| VNum (n : Z)
| VStr (s : string)
| VObj (ref : nat) (fields : list (string * value)).

(** [a === b] *)
Definition strict_eq (a b : value) : bool :=
  match a, b with
  | VUndefined, VUndefined => true
  | VNull, VNull => true
  | VBool x, VBool y => Bool.eqb x y
  | VNum x, VNum y => Z.eqb x y
  | VStr x, VStr y => String.eqb x y
  | VObj r _, VObj r' _ => Nat.eqb r r'
  | _, _ => false
  end.

(** [a !== b] *)
Definition strict_neq (a b : value) : bool := negb (strict_eq a b).

(** Truthiness, as used by [||], [?:] and [if]. *)
Definition truthy (v : value) : bool :=
  match v with
  | VUndefined | VNull => false
  | VBool b => b
  | VNum n => negb (n =? 0)
  | VStr s => negb (String.eqb s "")
  | VObj _ _ => true
  end.

(** Own-property lookup; a missing property reads as [undefined]. *)
Fixpoint lookup (k : string) (fs : list (string * value)) : value :=
  match fs with
  | [] => VUndefined
  | (k', v) :: rest => if String.eqb k k' then v else lookup k rest
  end.

(** Outcome of an expression that can throw. *)
Inductive result (A : Type) : Type :=
| Ok (a : A)
| Throw (err : string).
Arguments Ok {A} a.
Arguments Throw {A} err.

Definition rbind {A B} (r : result A) (k : A -> result B) : result B :=
  match r with
  | Ok a => k a
  | Throw e => Throw e
  end.

(** [x.k]: a TypeError on [null] and [undefined]; none of the property
    names read by the pipeline exists on a primitive's prototype, so a
    primitive reads as [undefined]. *)
Definition get (x : value) (k : string) : result value :=
  match x with
  | VUndefined | VNull => Throw "TypeError"
  | VObj _ fs => Ok (lookup k fs)
  | _ => Ok VUndefined
  end.

(** [x?.k] *)
Definition opt_get (x : value) (k : string) : value :=
  match x with
  | VObj _ fs => lookup k fs
  | _ => VUndefined
  end.

(** [a || b] *)
Definition or_else (a b : value) : value := if truthy a then a else b.

(** A template literal renders a nullable string column: [`${null}`]
    is ["null"]. *)
Definition template (s : option string) : string :=
  match s with
  | Some x => x
  | None => "null"
  end.

Definition of_opt_string (s : option string) : value :=
  match s with Some x => VStr x | None => VNull end.

Definition of_opt_num (n : option Z) : value :=
  match n with Some x => VNum x | None => VNull end.

End JS.

Notation "x <-? c ;; k" := (JS.rbind c (fun x => k))
(at level 61, c at next level, right associativity).

(* ================================================================== *)
(** * Effects: state threaded through calls that may throw *)
(* ================================================================== *)

Module Eff.
Import JS.

(** A computation over a state [S]: it returns or throws, and in both
    cases the mutations made so far stay. *)
Definition M (S A : Type) : Type := S -> result A * S.

Definition ret {S A} (a : A) : M S A := fun s => (Ok a, s).

Definition bind {S A B} (m : M S A) (k : A -> M S B) : M S B :=
  fun s =>
    match m s with
    | (Ok a, s') => k a s'
    | (Throw e, s') => (Throw e, s')
    end.

Definition throw {S A} (e : string) : M S A := fun s => (Throw e, s).

(** [try { body } catch (error) { handler }] *)
Definition try_catch {S A} (body : M S A) (handler : string -> M S A)
  : M S A :=
  fun s =>
    match body s with
    | (Ok a, s') => (Ok a, s')
    | (Throw e, s') => handler e s'
    end.

Definition lift {S A} (r : result A) : M S A := fun s => (r, s).

Definition gets {S A} (f : S -> A) : M S A := fun s => (Ok (f s), s).

Definition modify {S} (f : S -> S) : M S unit := fun s => (Ok tt, f s).

(** [for (const x of xs) { body }] *)
Fixpoint for_of {S A} (xs : list A) (body : A -> M S unit) : M S unit :=
  match xs with
  | [] => ret tt
  | x :: rest => bind (body x) (fun _ => for_of rest body)
  end.

End Eff.

Notation "x <- c ;; k" := (Eff.bind c (fun x => k))
(at level 61, c at next level, right associativity).
Notation "c ;;; k" := (Eff.bind c (fun _ => k))
(at level 61, right associativity).

(* ================================================================== *)
(** * Consumer: KafkaConsumerService (kafka-consumer.js) *)
(* ================================================================== *)

Module KafkaConsumerService.
Import JS Eff.

(** ** Classifier functions *)

(** [classifyChange(eventData)] *)
Definition classifyChange (eventData : value) : result string :=
  t <-? get eventData "table" ;;
  if strict_eq t (VStr "users") then Ok "USER_DATA_CHANGE"
  else
    t' <-? get eventData "table" ;;
    if strict_eq t' (VStr "user_tokens") then Ok "AUTH_TOKEN_CHANGE"
    else Ok "GENERAL_DATA_CHANGE".

(** [isCriticalChange(eventData)]: [&&] and [||] evaluate their right
    operand only when needed. *)
Definition isCriticalChange (eventData : value) : result bool :=
  t <-? get eventData "table" ;;
  if strict_eq t (VStr "users") then
    op <-? get eventData "operation" ;;
    if strict_eq op (VStr "DELETE") then Ok true
    else
      op' <-? get eventData "operation" ;;
      if strict_eq op' (VStr "UPDATE") then
        nd <-? get eventData "newData" ;;
        od <-? get eventData "oldData" ;;
        Ok (strict_neq (opt_get nd "password") (opt_get od "password"))
      else Ok false
  else Ok false.

(** [assessLoginRisk(loginData)] *)
Definition assessLoginRisk (loginData : value) : result string :=
  ip <-? get loginData "ipAddress" ;;
  if strict_eq ip (VStr "127.0.0.1") then Ok "LOW" else Ok "MEDIUM".


(** ** Dispatcher *)

(** A message as [kafkajs] hands it over: [key] and [value] are
    buffers or [null]; a buffer is read through [toString()]. *)
Record Message : Type := mkMessage {
  key : option string;
  value_ : option string;
  offset : string;
  timestamp : string
}.

(** What the consumer writes. [Console category fields] is one JSON
    line: its [category] and its data properties; the time stamps, the
    JSON text sizes and the nested [kafkaMetadata] / [processingMetadata]
    blocks are left out. *)
Inductive Output : Type :=
| LogKafkaEvent (eventType topic : string) (partition : Z)
                (offset : string) (key : option string)
| LogSystemEvent (event level : string)
| Console (category : string) (fields : list (string * value)).

Record State : Type := mkState {
  processedMessages : Z;
  out : list Output
}.

Definition emit (o : Output) : M State unit :=
  modify (fun s => mkState (processedMessages s) (out s ++ [o])).

Definition logSystemEvent (event level : string) : M State unit :=
  emit (LogSystemEvent event level).

(** [processLoginEvent(eventData, logEntry)] *)
Definition processLoginEvent (eventData : value)
  (logEntry : list (string * value)) : M State unit :=
  data <- lift (get eventData "data") ;;
  if truthy (opt_get data "ipAddress") then
    data' <- lift (get eventData "data") ;;
    risk <- lift (assessLoginRisk data') ;;
    emit (Console "SECURITY_MONITORING"
            (logEntry ++ [("securityEvent", VStr "USER_LOGIN_DETECTED");
                          ("riskLevel", VStr risk)]))
  else ret tt.

(** [processLogoutEvent(eventData, logEntry)] *)
Definition processLogoutEvent (eventData : value)
  (logEntry : list (string * value)) : M State unit :=
  emit (Console "SESSION_MONITORING"
          (logEntry ++ [("sessionEvent", VStr "USER_SESSION_ENDED")])).

(** [processRegistrationEvent(eventData, logEntry)] *)
Definition processRegistrationEvent (eventData : value)
  (logEntry : list (string * value)) : M State unit :=
  emit (Console "USER_GROWTH_MONITORING"
          (logEntry ++ [("growthEvent", VStr "NEW_USER_REGISTERED")])).

(** [processUserEvent(eventData, message)] *)
Definition processUserEvent (eventData : value) (message : Message)
  : M State unit :=
  try_catch
    (type <- lift (get eventData "type") ;;
     data <- lift (get eventData "data") ;;
     let logEntry :=
       [("eventType", type);
        ("userId", opt_get data "userId");
        ("email", opt_get data "email");
        ("action", or_else (opt_get data "action") type);
        ("ipAddress", opt_get data "ipAddress");
        ("userAgent", opt_get data "userAgent");
        ("sessionId", opt_get data "sessionId")] in
     emit (Console "USER_EVENT_PROCESSING" logEntry) ;;;
     if strict_eq type (VStr "USER_LOGIN")
     then processLoginEvent eventData logEntry
     else if strict_eq type (VStr "USER_LOGOUT")
     then processLogoutEvent eventData logEntry
     else if strict_eq type (VStr "USER_REGISTERED")
     then processRegistrationEvent eventData logEntry
     else ret tt)
    (fun error => logSystemEvent "USER_EVENT_PROCESSING_ERROR" "error").

(** [processCriticalDatabaseChange(eventData, logEntry)] *)
Definition processCriticalDatabaseChange (eventData : value)
  (logEntry : list (string * value)) : M State unit :=
  emit (Console "CRITICAL_DATABASE_CHANGE"
          (logEntry ++ [("alertLevel", VStr "HIGH");
                        ("requiresAttention", VBool true)])).

(** [processDatabaseEvent(eventData, message)] *)
Definition processDatabaseEvent (eventData : value) (message : Message)
  : M State unit :=
  try_catch
    (operation <- lift (get eventData "operation") ;;
     table <- lift (get eventData "table") ;;
     recordId <- lift (get eventData "recordId") ;;
     userId <- lift (get eventData "userId") ;;
     changeType <- lift (classifyChange eventData) ;;
     let logEntry :=
       [("operation", operation);
        ("table", table);
        ("recordId", recordId);
        ("userId", userId);
        ("changeType", VStr changeType)] in
     emit (Console "DATABASE_CHANGE_PROCESSING" logEntry) ;;;
     critical <- lift (isCriticalChange eventData) ;;
     if (critical : bool)
     then processCriticalDatabaseChange eventData logEntry
     else ret tt)
    (fun error => logSystemEvent "DATABASE_EVENT_PROCESSING_ERROR" "error").

(** [processSystemLog(eventData, message)] *)
Definition processSystemLog (eventData : value) (message : Message)
  : M State unit :=
  try_catch
    (level <- lift (get eventData "level") ;;
     event <- lift (get eventData "event") ;;
     data <- lift (get eventData "data") ;;
     emit (Console "SYSTEM_LOG_PROCESSING"
             [("level", or_else level (VStr "info"));
              ("event", event);
              ("data", data)]))
    (fun error => logSystemEvent "SYSTEM_LOG_PROCESSING_ERROR" "error").

Section Dispatch.

(** [JSON.parse] of the runtime: [None] is a [SyntaxError]. *)
Variable JSON_parse : string -> option value.

Definition parse_value (message : Message) : M State value :=
  match value_ message with
  | Some text =>
      match JSON_parse text with
      | Some v => ret v
      | None => throw "SyntaxError"
      end
  | None => ret VNull
  end.

(** [processMessage(topic, partition, message)] *)
Definition processMessage (topic : string) (partition : Z)
  (message : Message) : M State unit :=
  try_catch
    (let key := key message in
     value <- parse_value message ;;
     modify (fun s => mkState (processedMessages s + 1) (out s)) ;;;
     emit (LogKafkaEvent "MESSAGE_RECEIVED" topic partition
             (offset message) key) ;;;
     (if String.eqb topic "user-events"
      then processUserEvent value message
      else if String.eqb topic "database-events"
      then processDatabaseEvent value message
      else if String.eqb topic "system-logs"
      then processSystemLog value message
      else logSystemEvent "UNKNOWN_TOPIC_MESSAGE" "warn") ;;;
     total <- gets processedMessages ;;
     emit (Console "REALTIME_DATA_PROCESSING"
             [("action", VStr "MESSAGE_PROCESSED");
              ("topic", VStr topic);
              ("partition", VNum partition);
              ("offset", VStr (offset message));
              ("key", of_opt_string key);
              ("totalProcessed", VNum total)]))
    (fun error => logSystemEvent "MESSAGE_PROCESSING_ERROR" "error").

End Dispatch.

(** The topics of [consumer.subscribe]. *)
Definition subscribed_topics : list string :=
  ["user-events"; "database-events"; "system-logs"].

(** ** Batches *)

(** The [batch] argument of [eachBatch]. *)
Record Batch : Type := mkBatch {
  batch_topic : string;
  batch_partition : Z;
  messages : list Message
}.

(** [array[i]?.offset]: an index outside the array reads [undefined]. *)
Definition offset_at (l : list Message) (i : Z) : value :=
  if i <? 0 then VUndefined
  else match nth_error l (Z.to_nat i) with
       | Some m => VStr (offset m)
       | None => VUndefined
       end.

(** [processBatch(batch)] *)
Definition processBatch (batch : Batch) : M State unit :=
  let batchSize := Z.of_nat (length (messages batch)) in
  total <- gets processedMessages ;;
  emit (Console "BATCH_PROCESSING"
          [("topic", VStr (batch_topic batch));
           ("partition", VNum (batch_partition batch));
           ("batchSize", VNum batchSize);
           ("firstOffset", offset_at (messages batch) 0);
           ("lastOffset", offset_at (messages batch) (batchSize - 1));
           ("totalProcessed", VNum total)]).

End KafkaConsumerService.

(* ================================================================== *)
(** * Producer: TiDBCDCService (the CDC poller and publisher) *)
(* ================================================================== *)

Module TiDBCDCService.
Import JS Eff.

(** ** Data *)

(** A row of [cdc_change_log] as [mysql2] returns it: [record_id] and
    [user_id] are nullable columns, the JSON columns arrive parsed. *)
Record Change : Type := mkChange {
  id : Z;
  table_name : string;
  operation_type : string;
  record_id : option string;
  old_data : value;
  new_data : value;
  user_id : option Z;
  change_timestamp : Z;
  processed : bool
}.

(** [changeLogEntry], and [criticalLogEntry] which spreads it and adds
    three properties (absent, [None], on the ordinary entry). The
    constant [metadata] block (database name, environment, service
    name) is left out: nothing reads it. *)
Record LogEntry : Type := mkLogEntry {
  timestamp : Z;
  category : string;
  operation : string;
  table : string;
  recordId : option string;
  userId : option Z;
  oldData : value;
  newData : value;
  changeTimestamp : Z;
  cdcId : Z;
  processedAt : Z;
  processingDelay : Z;
  alertLevel : option string;
  requiresAttention : option bool;
  securityImplications : option string
}.

(** The argument of [producer.send]: one message on one topic. *)
Record KafkaMessage : Type := mkKafkaMessage {
  topic : string;
  key : string;
  payload : LogEntry;
  sentAt : Z
}.

(** What the service writes to the console and to [StructuredLogger]. *)
Inductive Output : Type :=
| ConsoleProcessing (n : nat)
| ConsoleEntry (e : LogEntry)
| LogDatabaseChange (operation table : string) (recordId : option string)
| LogKafkaEvent (eventType topic : string) (table : string)
| LogSystemEvent (event level : string).

(** The service together with the store and the broker it talks to.
    [sends] is the history of [producer.send] calls, oldest first, each
    with whether the broker acknowledged it. [send_outcomes] and
    [db_outcomes] are what the broker and the store will answer to the
    next calls ([false]: the call throws); once used up, calls succeed. *)
Record State : Type := mkState {
  db : list Change;
  lastProcessedId : Z;
  changesProcessed : Z;
  sends : list (KafkaMessage * bool);
  send_outcomes : list bool;
  db_outcomes : list bool;
  out : list Output;
  now : Z
}.

Definition with_db (f : list Change -> list Change) (s : State) : State :=
  mkState (f (db s)) (lastProcessedId s) (changesProcessed s) (sends s)
          (send_outcomes s) (db_outcomes s) (out s) (now s).

Definition with_lastProcessedId (c : Z) (s : State) : State :=
  mkState (db s) c (changesProcessed s) (sends s)
          (send_outcomes s) (db_outcomes s) (out s) (now s).

Definition with_changesProcessed (n : Z) (s : State) : State :=
  mkState (db s) (lastProcessedId s) n (sends s)
          (send_outcomes s) (db_outcomes s) (out s) (now s).

Definition with_send (m : KafkaMessage) (ok : bool) (s : State) : State :=
  mkState (db s) (lastProcessedId s) (changesProcessed s)
          (sends s ++ [(m, ok)])
          (tl (send_outcomes s)) (db_outcomes s) (out s) (now s).

Definition with_db_call (s : State) : State :=
  mkState (db s) (lastProcessedId s) (changesProcessed s) (sends s)
          (send_outcomes s) (tl (db_outcomes s)) (out s) (now s).

Definition with_out (o : Output) (s : State) : State :=
  mkState (db s) (lastProcessedId s) (changesProcessed s) (sends s)
          (send_outcomes s) (db_outcomes s) (out s ++ [o]) (now s).

(** Messages the broker acknowledged, oldest first. *)
Definition delivered (s : State) : list KafkaMessage :=
  map fst (filter snd (sends s)).

(** ** Environment calls *)

Definition next_outcome (l : list bool) : bool :=
  match l with
  | b :: _ => b
  | [] => true
  end.

(** [await this.producer.send({topic, messages: [{key, value, timestamp}]})] *)
Definition producer_send (m : KafkaMessage) : M State unit :=
  fun s =>
    if next_outcome (send_outcomes s)
    then (Ok tt, with_send m true s)
    else (Throw "KafkaJSError", with_send m false s).

Definition console_log (o : Output) : M State unit := modify (with_out o).

Definition Date_now : M State Z := gets now.

(** ** The change log as a table *)

Fixpoint insert_by_id (c : Change) (l : list Change) : list Change :=
  match l with
  | [] => [c]
  | d :: rest =>
      if id c <=? id d then c :: d :: rest else d :: insert_by_id c rest
  end.

(** [ORDER BY id ASC] *)
Definition order_by_id (l : list Change) : list Change :=
  fold_right insert_by_id [] l.

(** [SELECT * FROM cdc_change_log WHERE id > ? AND processed = FALSE
     ORDER BY id ASC LIMIT 100] *)
Definition select_unprocessed (cursor : Z) (rows : list Change)
  : list Change :=
  firstn 100
    (order_by_id
       (filter (fun c => (cursor <? id c) && negb (processed c)) rows)).

Definition set_processed (c : Change) : Change :=
  mkChange (id c) (table_name c) (operation_type c) (record_id c)
           (old_data c) (new_data c) (user_id c) (change_timestamp c) true.

(** [UPDATE cdc_change_log SET processed = TRUE WHERE id <= ?] *)
Definition mark_processed (maxId : Z) (rows : list Change) : list Change :=
  map (fun c => if id c <=? maxId then set_processed c else c) rows.

(** [await this.db.execute(SELECT ..., [cursor])] *)
Definition db_select (cursor : Z) : M State (list Change) :=
  fun s =>
    if next_outcome (db_outcomes s)
    then (Ok (select_unprocessed cursor (db s)), with_db_call s)
    else (Throw "StorageReadError", with_db_call s).

(** [await this.db.execute(UPDATE ..., [maxId])] *)
Definition db_update (maxId : Z) : M State unit :=
  fun s =>
    if next_outcome (db_outcomes s)
    then (Ok tt, with_db (mark_processed maxId) (with_db_call s))
    else (Throw "StorageWriteError", with_db_call s).

(** ** StructuredLogger *)

Definition logSystemEvent (event level : string) : M State unit :=
  console_log (LogSystemEvent event level).

Definition logDatabaseChange (operation table : string)
  (recordId : option string) : M State unit :=
  console_log (LogDatabaseChange operation table recordId).

Definition logKafkaEvent (eventType topic table : string) : M State unit :=
  console_log (LogKafkaEvent eventType topic table).

(** ** Publisher *)

(** [isCriticalChange(change)] *)
Definition isCriticalChange (change : Change) : bool :=
  if String.eqb (table_name change) "users"
     && String.eqb (operation_type change) "DELETE"
  then true
  else
    if String.eqb (table_name change) "users"
       && String.eqb (operation_type change) "UPDATE"
    then
      let oldData := old_data change in
      let newData := new_data change in
      if strict_neq (opt_get oldData "password") (opt_get newData "password")
      then true
      else false
    else false.

(** [getSecurityImplications(change)] *)
Definition getSecurityImplications (change : Change) : string :=
  if String.eqb (table_name change) "users"
     && String.eqb (operation_type change) "DELETE"
  then "USER_ACCOUNT_DELETED"
  else
    if String.eqb (table_name change) "users"
       && String.eqb (operation_type change) "UPDATE"
    then "USER_DATA_MODIFIED"
    else "UNKNOWN".

(** The object literal [changeLogEntry] of [processChange], built at
    time [t]. *)
Definition changeLogEntry (change : Change) (t : Z) : LogEntry :=
  {| timestamp := t;
     category := "DATABASE_CHANGE";
     operation := operation_type change;
     table := table_name change;
     recordId := record_id change;
     userId := user_id change;
     oldData := old_data change;
     newData := new_data change;
     changeTimestamp := change_timestamp change;
     cdcId := id change;
     processedAt := t;
     processingDelay := t - change_timestamp change;
     alertLevel := None;
     requiresAttention := None;
     securityImplications := None |}.

(** The object literal [criticalLogEntry] of [processCriticalChange]. *)
Definition criticalLogEntry (change : Change) (e : LogEntry) : LogEntry :=
  {| timestamp := timestamp e;
     category := "CRITICAL_DATABASE_CHANGE";
     operation := operation e;
     table := table e;
     recordId := recordId e;
     userId := userId e;
     oldData := oldData e;
     newData := newData e;
     changeTimestamp := changeTimestamp e;
     cdcId := cdcId e;
     processedAt := processedAt e;
     processingDelay := processingDelay e;
     alertLevel := Some "HIGH";
     requiresAttention := Some true;
     securityImplications := Some (getSecurityImplications change) |}.

(** Message key of [sendChangeToKafka]:
    [`${changeLogEntry.table}_${changeLogEntry.recordId}`] *)
Definition change_key (e : LogEntry) : string :=
  table e ++ "_" ++ template (recordId e).

(** Message key of [processCriticalChange]:
    [`CRITICAL_${change.table_name}_${change.record_id}`] *)
Definition critical_key (change : Change) : string :=
  "CRITICAL_" ++ table_name change ++ "_" ++ template (record_id change).

(** [sendChangeToKafka(changeLogEntry)] *)
Definition sendChangeToKafka (e : LogEntry) : M State unit :=
  try_catch
    (t <- Date_now ;;
     producer_send
       {| topic := "database-events";
          key := change_key e;
          payload := e;
          sentAt := t |} ;;;
     logKafkaEvent "CHANGE_SENT" "database-events" (table e))
    (fun error => logSystemEvent "CDC_KAFKA_SEND_ERROR" "error").

(** [processCriticalChange(change, changeLogEntry)] *)
Definition processCriticalChange (change : Change) (e : LogEntry)
  : M State unit :=
  let criticalLogEntry := criticalLogEntry change e in
  console_log (ConsoleEntry criticalLogEntry) ;;;
  t <- Date_now ;;
  producer_send
    {| topic := "critical-database-events";
       key := critical_key change;
       payload := criticalLogEntry;
       sentAt := t |}.

(** [processChange(change)] *)
Definition processChange (change : Change) : M State unit :=
  try_catch
    (t <- Date_now ;;
     let changeLogEntry := changeLogEntry change t in
     console_log (ConsoleEntry changeLogEntry) ;;;
     logDatabaseChange (operation_type change) (table_name change)
                       (record_id change) ;;;
     sendChangeToKafka changeLogEntry ;;;
     if isCriticalChange change
     then processCriticalChange change changeLogEntry
     else ret tt)
    (fun error => logSystemEvent "CDC_CHANGE_PROCESSING_ERROR" "error").

(** ** Poller *)

(** The body of the [for (const change of changes)] loop. *)
Definition poll_step (change : Change) : M State unit :=
  processChange change ;;;
  modify (fun s => with_changesProcessed (changesProcessed s + 1) s) ;;;
  modify (with_lastProcessedId (id change)).

(** [Math.max(...ids)] for a list that is not empty. *)
Definition Math_max (first : Z) (others : list Z) : Z :=
  fold_left Z.max others first.

(** [pollForChanges()]. The cursor read [lastProcessedId.cdc_change_log
    || 0] is the cursor itself: [0 || 0] is [0]. The second
    [changes.length > 0] test is the match on the list of ids. *)
Definition pollForChanges : M State unit :=
  try_catch
    (cursor <- gets lastProcessedId ;;
     changes <- db_select cursor ;;
     if Nat.eqb (length changes) 0 then ret tt
     else
       console_log (ConsoleProcessing (length changes)) ;;;
       for_of changes poll_step ;;;
       match map id changes with
       | [] => ret tt
       | first :: others => db_update (Math_max first others)
       end)
    (fun error => logSystemEvent "CDC_POLL_ERROR" "error").

(** One cycle, as a state transformer. *)
Definition cycle (s : State) : State := snd (pollForChanges s).

(** ** Start-up: the cursor *)

(** [SELECT MAX(id) as maxId FROM cdc_change_log WHERE processed = true]:
    the answer has one row, whose [maxId] is NULL when no row is
    processed. *)
Definition max_processed_id (rows : list Change) : option Z :=
  match map id (filter processed rows) with
  | [] => None
  | first :: others => Some (Math_max first others)
  end.

Definition db_max_processed : M State (option Z) :=
  fun s =>
    if next_outcome (db_outcomes s)
    then (Ok (max_processed_id (db s)), with_db_call s)
    else (Throw "StorageReadError", with_db_call s).

(** [rows[0]?.maxId || 0]: NULL and [0] are falsy. *)
Definition maxId_or_zero (maxId : option Z) : Z :=
  match maxId with
  | Some m => if m =? 0 then 0 else m
  | None => 0
  end.

(** [initializeLastProcessedIds()]. The [console.warn] of the [catch]
    goes to the error stream, which the state does not record. *)
Definition initializeLastProcessedIds : M State unit :=
  try_catch
    (maxId <- db_max_processed ;;
     modify (with_lastProcessedId (maxId_or_zero maxId)) ;;;
     logSystemEvent "CDC_INITIALIZED" "info")
    (fun error => modify (with_lastProcessedId 0)).

(** ** The polling loop *)

(** [startPolling()] over [ticks] expirations of its timer, while
    [isRunning] stays true: each expiration runs [pollForChanges] under
    a [catch] that logs, then arms the timer again. *)
Fixpoint startPolling (ticks : nat) : M State unit :=
  match ticks with
  | O => ret tt
  | S n =>
      try_catch pollForChanges
        (fun error => logSystemEvent "CDC_POLLING_ERROR" "error") ;;;
      startPolling n
  end.

(** ** Change Recorder: the rows the triggers append *)

(** A row of a watched table as the trigger body reads it: its [id]
    column and, where the table has one, its [user_id] column. *)
Record WatchedRow : Type := mkWatchedRow {
  row_id : Z;
  row_user_id : option Z
}.

(** An INT rendered into the VARCHAR column [record_id]. *)
Definition decimal (n : Z) : string := NilZero.string_of_int (Z.to_int n).

(** [CASE WHEN table = 'users' THEN row.id
         WHEN table = 'user_tokens' THEN row.user_id ELSE NULL END] *)
Definition trigger_user_id (tableName : string) (row : WatchedRow)
  : option Z :=
  if String.eqb tableName "users" then Some (row_id row)
  else if String.eqb tableName "user_tokens" then row_user_id row
  else None.

(** [JSON_OBJECT('id', row.id)], read back as an object of identity
    [ref]. *)
Definition json_id (ref : nat) (row : WatchedRow) : value :=
  VObj ref [("id", VNum (row_id row))].


Definition update_trigger (tableName : string) (OLD NEW : WatchedRow)
  (autoId ts : Z) (refOld refNew : nat) : Change :=
  {| id := autoId;
     table_name := tableName;
     operation_type := "UPDATE";
     record_id := Some (decimal (row_id NEW));
     old_data := json_id refOld OLD;
     new_data := json_id refNew NEW;
     user_id := trigger_user_id tableName NEW;
     change_timestamp := ts;
     processed := false |}.


End TiDBCDCService.

(* ================================================================== *)
(** * Producer life cycle: start, the polling timer, stop *)
(* ================================================================== *)

Module Lifecycle.
Import JS Eff TiDBCDCService.

(** The service object around the poller state: the [isRunning] flag,
    whether the polling timer is armed, and the history of the calls
    made to the store other than the poller's two queries
    (connection, USE, DDL, end), each with whether it succeeded. The
    answers of the store and of the broker are taken, call after call,
    from [db_outcomes] and [send_outcomes] of the poller state. *)
Record Service : Type := mkService {
  core : State;
  isRunning : bool;
  timerArmed : bool;
  statements : list (string * bool)
}.

Definition with_core (c : State) (sv : Service) : Service :=
  mkService c (isRunning sv) (timerArmed sv) (statements sv).

Definition with_isRunning (b : bool) (sv : Service) : Service :=
  mkService (core sv) b (timerArmed sv) (statements sv).

Definition with_timerArmed (b : bool) (sv : Service) : Service :=
  mkService (core sv) (isRunning sv) b (statements sv).

(** A method of the poller, run on the service. *)
Definition on_core {A : Type} (m : M State A) : M Service A :=
  fun sv =>
    match m (core sv) with
    | (r, c) => (r, with_core c sv)
    end.

(** A call to the store named [label]: connection, USE, DDL or end. *)
Definition store_call (label : string) : M Service unit :=
  fun sv =>
    let ok := next_outcome (db_outcomes (core sv)) in
    let sv' :=
      mkService (with_db_call (core sv)) (isRunning sv) (timerArmed sv)
                (statements sv ++ [(label, ok)]) in
    if ok then (Ok tt, sv') else (Throw "StorageError", sv').

(** [producer.connect()] and [producer.disconnect()]: a call to the
    broker that is not a [send]. *)
Definition broker_call : M Service unit :=
  fun sv =>
    let c := core sv in
    let c' :=
      mkState (db c) (lastProcessedId c) (changesProcessed c) (sends c)
              (tl (send_outcomes c)) (db_outcomes c) (out c) (now c) in
    if next_outcome (send_outcomes c)
    then (Ok tt, with_core c' sv)
    else (Throw "KafkaJSConnectionError", with_core c' sv).

Definition log (event level : string) : M Service unit :=
  on_core (logSystemEvent event level).

(** [connectDatabase()] *)
Definition connectDatabase : M Service unit :=
  try_catch
    (store_call "createConnection" ;;;
     store_call "USE" ;;;
     log "CDC_DATABASE_CONNECTED" "info")
    (fun error =>
       log "CDC_DATABASE_CONNECTION_ERROR" "error" ;;; throw error).

(** [createCDCTrackingTable()] *)
Definition createCDCTrackingTable : M Service unit :=
  try_catch
    (store_call "CREATE TABLE cdc_change_log" ;;;
     log "CDC_TRACKING_TABLE_CREATED" "info")
    (fun error => log "CDC_TRACKING_TABLE_ERROR" "error" ;;; throw error).

(** [createTableTriggers(tableName, idColumn)]: the three CREATE TRIGGER
    statements in one [try]; its [catch] only warns on the error stream,
    which the state does not record. *)
Definition createTableTriggers (tableName : string) : M Service unit :=
  try_catch
    (store_call (tableName ++ "_insert_trigger") ;;;
     store_call (tableName ++ "_update_trigger") ;;;
     store_call (tableName ++ "_delete_trigger"))
    (fun error => ret tt).

(** The tables of [createCDCTriggers]. *)
Definition monitored_tables : list string :=
  ["users"; "user_tokens"; "user_activity_log"].

(** [createCDCTriggers()] *)
Definition createCDCTriggers : M Service unit :=
  try_catch
    (for_of monitored_tables createTableTriggers ;;;
     log "CDC_TRIGGERS_CREATED" "info")
    (fun error => log "CDC_TRIGGERS_ERROR" "error").

(** [startPolling()]: arms the timer unless the service is stopped. *)
Definition startPolling : M Service unit :=
  fun sv =>
    if negb (isRunning sv) then (Ok tt, sv)
    else (Ok tt, with_timerArmed true sv).

(** The callback of the polling timer, when it expires. *)
Definition on_timer : M Service unit :=
  modify (with_timerArmed false) ;;;
  try_catch (on_core pollForChanges)
    (fun error => log "CDC_POLLING_ERROR" "error") ;;;
  startPolling.

(** The timer runs out: its callback runs if the timer is armed. *)
Definition expire (sv : Service) : Service :=
  if timerArmed sv then snd (on_timer sv) else sv.

(** The timer runs out [n] times in a row. *)
Fixpoint expirations (n : nat) (sv : Service) : Service :=
  match n with
  | O => sv
  | S k => expirations k (expire sv)
  end.

(** [start()]. Its two closing banner lines are not recorded. *)
Definition start : M Service unit :=
  try_catch
    (connectDatabase ;;;
     broker_call ;;;
     log "CDC_KAFKA_CONNECTED" "info" ;;;
     createCDCTrackingTable ;;;
     createCDCTriggers ;;;
     on_core initializeLastProcessedIds ;;;
     modify (with_isRunning true) ;;;
     log "CDC_SERVICE_STARTED" "info" ;;;
     startPolling)
    (fun error => log "CDC_START_ERROR" "error" ;;; throw error).

(** [stop()] *)
Definition stop : M Service unit :=
  fun sv =>
    if isRunning sv then
      (modify (with_isRunning false) ;;;
       broker_call ;;;
       store_call "end" ;;;
       log "CDC_SERVICE_STOPPED" "info") sv
    else (Ok tt, sv).

End Lifecycle.

(* ================================================================== *)
(** * Properties of the classifier *)
(* ================================================================== *)

Module P := TiDBCDCService.
Module K := KafkaConsumerService.

(** What a consumer reads from the value of an ordinary envelope: the
    top-level properties of [changeLogEntry] under their published
    names (the nested [cdcMetadata] and [metadata] blocks, which the
    consumer never reads, are not listed). *)
Definition received (ref : nat) (e : P.LogEntry) : JS.value :=
  JS.VObj ref
    [("timestamp", JS.VNum (P.timestamp e));
     ("category", JS.VStr (P.category e));
     ("operation", JS.VStr (P.operation e));
     ("table", JS.VStr (P.table e));
     ("recordId", JS.of_opt_string (P.recordId e));
     ("userId", JS.of_opt_num (P.userId e));
     ("oldData", P.oldData e);
     ("newData", P.newData e);
     ("changeTimestamp", JS.VNum (P.changeTimestamp e))].

(** The credential field of the two snapshots differs: [!==] on
    [before?.password] and [after?.password]. *)
Definition credential_differs (before after : JS.value) : Prop :=
  JS.strict_eq (JS.opt_get before "password") (JS.opt_get after "password")
  = false.

(** The criticality rule in the specification's words: an identity
    entity is deleted, or it is updated and the credential field
    differs. *)
Definition isCritical_spec (operation table : string)
  (before after : JS.value) : Prop :=
  table = "users" /\
  (operation = "DELETE" \/
   (operation = "UPDATE" /\ credential_differs before after)).

Lemma strict_eq_sym (a b : JS.value) : JS.strict_eq a b = JS.strict_eq b a.
Proof.
  destruct a, b; simpl; try reflexivity.
  - destruct b, b0; reflexivity.
  - apply Z.eqb_sym.
  - apply String.eqb_sym.
  - apply Nat.eqb_sym.
Qed.

Lemma strict_eq_str (v : JS.value) (s : string) :
  JS.strict_eq v (JS.VStr s) = true <-> v = JS.VStr s.
Proof.
  destruct v; simpl; split; intro H; try discriminate.
  - apply String.eqb_eq in H. now subst.
  - injection H as ->. apply String.eqb_refl.
Qed.

Lemma strict_eq_str_false (v : JS.value) (s : string) :
  JS.strict_eq v (JS.VStr s) = false <-> v <> JS.VStr s.
Proof.
  rewrite <- strict_eq_str. destruct (JS.strict_eq v (JS.VStr s)); split;
    intros; congruence.
Qed.

Lemma strict_eq_VStr (s t : string) :
  JS.strict_eq (JS.VStr s) (JS.VStr t) = String.eqb s t.
Proof. reflexivity. Qed.

(** The rule as a boolean expression over the row's columns. *)
Definition critical_expr (operation table : string)
  (before after : JS.value) : bool :=
  String.eqb table "users"
  && (String.eqb operation "DELETE"
      || (String.eqb operation "UPDATE"
          && JS.strict_neq (JS.opt_get before "password")
                           (JS.opt_get after "password"))).

Lemma critical_expr_iff (operation table : string) (before after : JS.value) :
  critical_expr operation table before after = true <->
  isCritical_spec operation table before after.
Proof.
  unfold critical_expr, isCritical_spec, credential_differs, JS.strict_neq.
  rewrite andb_true_iff, orb_true_iff, andb_true_iff, negb_true_iff,
    !String.eqb_eq.
  reflexivity.
Qed.

(** The producer's chain of [if]s computes the expression. *)
Lemma producer_isCritical_expr (c : P.Change) :
  P.isCriticalChange c =
  critical_expr (P.operation_type c) (P.table_name c)
                (P.old_data c) (P.new_data c).
Proof.
  unfold P.isCriticalChange, critical_expr.
  destruct (String.eqb (P.table_name c) "users"); simpl; [| reflexivity].
  destruct (String.eqb (P.operation_type c) "DELETE"); simpl; [reflexivity |].
  destruct (String.eqb (P.operation_type c) "UPDATE"); simpl; [| reflexivity].
  destruct (JS.strict_neq _ _); reflexivity.
Qed.

(** The consumer's predicate on any event object. *)
Lemma consumer_isCritical_obj (ref : nat) (fs : list (string * JS.value)) :
  K.isCriticalChange (JS.VObj ref fs) =
  JS.Ok (JS.strict_eq (JS.lookup "table" fs) (JS.VStr "users")
         && (JS.strict_eq (JS.lookup "operation" fs) (JS.VStr "DELETE")
             || (JS.strict_eq (JS.lookup "operation" fs) (JS.VStr "UPDATE")
                 && JS.strict_neq
                      (JS.opt_get (JS.lookup "newData" fs) "password")
                      (JS.opt_get (JS.lookup "oldData" fs) "password")))).
Proof.
  unfold K.isCriticalChange. simpl.
  destruct (JS.strict_eq (JS.lookup "table" fs) _); simpl; [| reflexivity].
  destruct (JS.strict_eq (JS.lookup "operation" fs) (JS.VStr "DELETE"));
    simpl; [reflexivity |].
  destruct (JS.strict_eq (JS.lookup "operation" fs) (JS.VStr "UPDATE"));
    reflexivity.
Qed.

(** On the event that carries a change row the consumer computes the
    same expression. *)
Lemma consumer_isCritical_expr (c : P.Change) (ref : nat) (t : Z) :
  K.isCriticalChange (received ref (P.changeLogEntry c t)) =
  JS.Ok (critical_expr (P.operation_type c) (P.table_name c)
                       (P.old_data c) (P.new_data c)).
Proof.
  unfold received. rewrite consumer_isCritical_obj. simpl.
  rewrite ?strict_eq_VStr. unfold critical_expr, JS.strict_neq.
  now rewrite (strict_eq_sym (JS.opt_get (P.new_data c) "password")).
Qed.

(** C3. [isCriticalChange] is true exactly when the table is ['users']
    and the operation is DELETE, or is UPDATE with a password that
    differs between the two snapshots; this holds for the producer's
    predicate on a change row and for the consumer's predicate on the
    event with the same table, operation and snapshots, which returns
    false in every other case. In particular an identity UPDATE with an
    unchanged password and every operation on another table are not
    critical. *)
Theorem isCriticalChange_exactly :
  forall (c : P.Change) (ref : nat) (t : Z),
    (P.isCriticalChange c = true <->
     isCritical_spec (P.operation_type c) (P.table_name c)
                     (P.old_data c) (P.new_data c))
    /\
    (K.isCriticalChange (received ref (P.changeLogEntry c t)) = JS.Ok true <->
     isCritical_spec (P.operation_type c) (P.table_name c)
                     (P.old_data c) (P.new_data c))
    /\
    (K.isCriticalChange (received ref (P.changeLogEntry c t)) = JS.Ok true \/
     K.isCriticalChange (received ref (P.changeLogEntry c t)) = JS.Ok false).
Proof.
  intros c ref t.
  rewrite consumer_isCritical_expr, producer_isCritical_expr.
  rewrite <- critical_expr_iff.
  split; [reflexivity |]. split.
  - split; [intros H; now injection H | intros ->; reflexivity].
  - destruct (critical_expr _ _ _ _); auto.
Qed.

(** C4. The producer's and the consumer's criticality predicates give
    the same boolean: on every event object that carries the table,
    operation and two snapshots of a change row, the consumer's
    [isCriticalChange] returns what the producer's returns on the row. *)
Theorem isCriticalChange_same_on_both_sides :
  forall (c : P.Change) (ref : nat) (fs : list (string * JS.value)),
    JS.lookup "table" fs = JS.VStr (P.table_name c) ->
    JS.lookup "operation" fs = JS.VStr (P.operation_type c) ->
    JS.lookup "oldData" fs = P.old_data c ->
    JS.lookup "newData" fs = P.new_data c ->
    K.isCriticalChange (JS.VObj ref fs) = JS.Ok (P.isCriticalChange c).
Proof.
  intros c ref fs Ht Ho Hold Hnew.
  rewrite consumer_isCritical_obj, producer_isCritical_expr.
  rewrite Ht, Ho, Hold, Hnew. simpl.
  unfold critical_expr, JS.strict_neq.
  now rewrite (strict_eq_sym (JS.opt_get (P.new_data c) "password")).
Qed.

(** A password change on the identity table, as a row. *)
Definition password_update : P.Change :=
  {| P.id := 7;
     P.table_name := "users";
     P.operation_type := "UPDATE";
     P.record_id := Some "42";
     P.old_data := JS.VObj 1 [("id", JS.VNum 42); ("password", JS.VStr "h1")];
     P.new_data := JS.VObj 2 [("id", JS.VNum 42); ("password", JS.VStr "h2")];
     P.user_id := Some 42;
     P.change_timestamp := 1000;
     P.processed := false |}.

Lemma isCriticalChange_same_on_both_sides_witness :
  K.isCriticalChange (received 3 (P.changeLogEntry password_update 1005))
  = JS.Ok (P.isCriticalChange password_update)
  /\ P.isCriticalChange password_update = true.
Proof.
  split.
  - apply (isCriticalChange_same_on_both_sides password_update 3);
      reflexivity.
  - reflexivity.
Defined.

(** C7. [assessLoginRisk] returns LOW exactly for the origin address
    ['127.0.0.1'] and MEDIUM for every other one (['203.0.113.5'] among
    them); it returns nothing else. *)
Theorem assessLoginRisk_low_or_medium :
  forall (ref : nat) (fs : list (string * JS.value)),
    (exists r, K.assessLoginRisk (JS.VObj ref fs) = JS.Ok r /\
       (r = "LOW" <-> JS.lookup "ipAddress" fs = JS.VStr "127.0.0.1") /\
       (r = "MEDIUM" <-> JS.lookup "ipAddress" fs <> JS.VStr "127.0.0.1"))
    /\
    K.assessLoginRisk (JS.VObj ref [("ipAddress", JS.VStr "127.0.0.1")])
    = JS.Ok "LOW"
    /\
    K.assessLoginRisk (JS.VObj ref [("ipAddress", JS.VStr "203.0.113.5")])
    = JS.Ok "MEDIUM"
    /\
    (forall (loginData : JS.value) (r : string),
       K.assessLoginRisk loginData = JS.Ok r -> r = "LOW" \/ r = "MEDIUM").
Proof.
  intros ref fs. repeat split.
  - unfold K.assessLoginRisk. simpl.
    destruct (JS.strict_eq (JS.lookup "ipAddress" fs) _) eqn:E.
    + apply strict_eq_str in E. exists "LOW". repeat split; auto;
        try discriminate. intros H. contradiction.
    + apply strict_eq_str_false in E. exists "MEDIUM". repeat split; auto;
        try discriminate. intros H. contradiction.
  - intros loginData r. unfold K.assessLoginRisk.
    destruct (JS.get loginData "ipAddress") as [ip | e]; simpl;
      [| discriminate].
    destruct (JS.strict_eq ip _); intros H; injection H as <-; auto.
Qed.

(** C9. [classifyChange] returns a category for every event object,
    whatever its table: the identity category for ['users'], the
    credential category for ['user_tokens'], the generic one for every
    other table value; it does not throw. *)
Theorem classifyChange_total :
  forall (ref : nat) (fs : list (string * JS.value)),
    exists category,
      K.classifyChange (JS.VObj ref fs) = JS.Ok category /\
      (category = "USER_DATA_CHANGE" <->
       JS.lookup "table" fs = JS.VStr "users") /\
      (category = "AUTH_TOKEN_CHANGE" <->
       JS.lookup "table" fs = JS.VStr "user_tokens") /\
      (category = "GENERAL_DATA_CHANGE" <->
       JS.lookup "table" fs <> JS.VStr "users" /\
       JS.lookup "table" fs <> JS.VStr "user_tokens").
Proof.
  intros ref fs. unfold K.classifyChange. simpl.
  destruct (JS.strict_eq (JS.lookup "table" fs) (JS.VStr "users")) eqn:Eu.
  - apply strict_eq_str in Eu. exists "USER_DATA_CHANGE".
    rewrite Eu. repeat split; auto; try discriminate.
    intros [H _]. contradiction.
  - apply strict_eq_str_false in Eu.
    destruct (JS.strict_eq (JS.lookup "table" fs) (JS.VStr "user_tokens"))
      eqn:Et.
    + apply strict_eq_str in Et. exists "AUTH_TOKEN_CHANGE".
      repeat split; auto; try discriminate; try contradiction.
      intros [_ H]. contradiction.
    + apply strict_eq_str_false in Et. exists "GENERAL_DATA_CHANGE".
      repeat split; auto; try discriminate; contradiction.
Qed.

(** C10. For a change row that [isCriticalChange] accepts, the tag
    [getSecurityImplications] puts on the escalated envelope is
    ['USER_ACCOUNT_DELETED'] (a DELETE) or ['USER_DATA_MODIFIED'] (an
    UPDATE), never ['UNKNOWN']. *)
Theorem critical_tag_never_unknown :
  forall (c : P.Change) (e : P.LogEntry),
    P.isCriticalChange c = true ->
    P.securityImplications (P.criticalLogEntry c e)
    = Some (P.getSecurityImplications c)
    /\
    ((P.operation_type c = "DELETE" /\
      P.getSecurityImplications c = "USER_ACCOUNT_DELETED") \/
     (P.operation_type c = "UPDATE" /\
      P.getSecurityImplications c = "USER_DATA_MODIFIED"))
    /\
    P.getSecurityImplications c <> "UNKNOWN".
Proof.
  intros c e H. split; [reflexivity |].
  rewrite producer_isCritical_expr in H. unfold critical_expr in H.
  apply andb_true_iff in H. destruct H as [Ht H].
  unfold P.getSecurityImplications. rewrite Ht. simpl.
  destruct (String.eqb_spec (P.operation_type c) "DELETE") as [Hd | Hd].
  - split; [left; auto | discriminate].
  - simpl in H. apply andb_true_iff in H. destruct H as [Hu _].
    rewrite Hu. apply String.eqb_eq in Hu.
    split; [right; auto | discriminate].
Qed.

Lemma critical_tag_never_unknown_witness :
  P.isCriticalChange password_update = true /\
  P.getSecurityImplications password_update = "USER_DATA_MODIFIED".
Proof.
  assert (H : P.isCriticalChange password_update = true) by reflexivity.
  split; [exact H |].
  destruct (critical_tag_never_unknown password_update
              (P.changeLogEntry password_update 1005) H)
    as [_ [[[Hd _] | [_ Hu]] _]].
  - discriminate Hd.
  - exact Hu.
Defined.

(* ================================================================== *)
(** * Properties of the publisher *)
(* ================================================================== *)

(** The two messages [processChange] builds for a row at time [t]. *)
Definition primary_message (c : P.Change) (t : Z) : P.KafkaMessage :=
  {| P.topic := "database-events";
     P.key := P.change_key (P.changeLogEntry c t);
     P.payload := P.changeLogEntry c t;
     P.sentAt := t |}.

Definition escalated_message (c : P.Change) (t : Z) : P.KafkaMessage :=
  {| P.topic := "critical-database-events";
     P.key := P.critical_key c;
     P.payload := P.criticalLogEntry c (P.changeLogEntry c t);
     P.sentAt := t |}.

(** The [producer.send] calls of one [processChange], with the broker's
    answers. *)
Definition sends_of (c : P.Change) (t : Z) (outcomes : list bool)
  : list (P.KafkaMessage * bool) :=
  (primary_message c t, P.next_outcome outcomes)
  :: (if P.isCriticalChange c
      then [(escalated_message c t, P.next_outcome (tl outcomes))]
      else []).

(** The broker's answers left after one [processChange]. *)
Definition outcomes_after (c : P.Change) (outcomes : list bool) : list bool :=
  if P.isCriticalChange c then tl (tl outcomes) else tl outcomes.

Ltac run_publisher :=
  unfold P.processChange, P.sendChangeToKafka, P.processCriticalChange,
    P.logKafkaEvent, P.logSystemEvent, P.logDatabaseChange, P.console_log,
    P.producer_send, P.Date_now, Eff.try_catch, Eff.bind, Eff.gets,
    Eff.modify, Eff.ret;
  cbn [fst snd P.now P.sends P.send_outcomes P.db P.lastProcessedId
       P.changesProcessed P.db_outcomes P.out P.with_out P.with_send].

(** [processChange] never throws, touches neither the table nor the
    cursor nor the counter, and makes exactly the calls [sends_of]. *)
Lemma processChange_effect (c : P.Change) (s : P.State) :
  fst (P.processChange c s) = JS.Ok tt /\
  P.sends (snd (P.processChange c s))
  = (P.sends s ++ sends_of c (P.now s) (P.send_outcomes s))%list /\
  P.send_outcomes (snd (P.processChange c s))
  = outcomes_after c (P.send_outcomes s) /\
  P.db (snd (P.processChange c s)) = P.db s /\
  P.lastProcessedId (snd (P.processChange c s)) = P.lastProcessedId s /\
  P.changesProcessed (snd (P.processChange c s)) = P.changesProcessed s /\
  P.db_outcomes (snd (P.processChange c s)) = P.db_outcomes s /\
  P.now (snd (P.processChange c s)) = P.now s.
Proof.
  unfold sends_of, outcomes_after. run_publisher.
  destruct (P.next_outcome (P.send_outcomes s)) eqn:E1;
    cbn [fst snd P.now P.sends P.send_outcomes P.db P.lastProcessedId
         P.changesProcessed P.db_outcomes P.out P.with_out P.with_send];
    destruct (P.isCriticalChange c);
    cbn [fst snd P.now P.sends P.send_outcomes P.db P.lastProcessedId
         P.changesProcessed P.db_outcomes P.out P.with_out P.with_send];
    try destruct (P.next_outcome (tl (P.send_outcomes s))) eqn:E2;
    cbn [fst snd P.now P.sends P.send_outcomes P.db P.lastProcessedId
         P.changesProcessed P.db_outcomes P.out P.with_out P.with_send];
    rewrite <- ?app_assoc; repeat split; reflexivity.
Qed.

(** The [producer.send] calls one [processChange] adds to the history. *)
Definition new_sends (c : P.Change) (s : P.State)
  : list (P.KafkaMessage * bool) :=
  skipn (length (P.sends s)) (P.sends (snd (P.processChange c s))).

Lemma new_sends_eq (c : P.Change) (s : P.State) :
  new_sends c s = sends_of c (P.now s) (P.send_outcomes s).
Proof.
  unfold new_sends.
  destruct (processChange_effect c s) as [_ [-> _]].
  rewrite skipn_app, skipn_all, Nat.sub_diag. reflexivity.
Qed.

Lemma delivered_app (s : P.State) (l : list (P.KafkaMessage * bool)) :
  map fst (filter snd (P.sends s ++ l))
  = (P.delivered s ++ map fst (filter snd l))%list.
Proof. unfold P.delivered. now rewrite filter_app, map_app. Qed.

(** C5. [processChange] sends the ordinary envelope to the primary
    topic for every row; for a row that [isCriticalChange] accepts it
    then also sends, to the high-priority topic, the same envelope
    augmented with alertLevel HIGH, requiresAttention true and the
    security-implication tag; for any other row the primary send is the
    only one. Each message the broker acknowledges is delivered. *)
Theorem critical_change_published_on_both_topics :
  forall (c : P.Change) (s : P.State),
    let s' := snd (P.processChange c s) in
    let m1 := primary_message c (P.now s) in
    let m2 := escalated_message c (P.now s) in
    let ok1 := P.next_outcome (P.send_outcomes s) in
    let ok2 := P.next_outcome (tl (P.send_outcomes s)) in
    fst (P.processChange c s) = JS.Ok tt /\
    new_sends c s
    = (m1, ok1) :: (if P.isCriticalChange c then [(m2, ok2)] else []) /\
    P.delivered s'
    = (P.delivered s
       ++ (if ok1 then [m1] else [])
       ++ (if P.isCriticalChange c then if ok2 then [m2] else [] else []))%list
    /\
    (P.topic m1 = "database-events" /\
     P.payload m1 = P.changeLogEntry c (P.now s) /\
     P.alertLevel (P.payload m1) = None) /\
    (P.topic m2 = "critical-database-events" /\
     P.alertLevel (P.payload m2) = Some "HIGH" /\
     P.requiresAttention (P.payload m2) = Some true /\
     P.securityImplications (P.payload m2)
     = Some (P.getSecurityImplications c) /\
     P.operation (P.payload m2) = P.operation (P.payload m1) /\
     P.table (P.payload m2) = P.table (P.payload m1) /\
     P.recordId (P.payload m2) = P.recordId (P.payload m1) /\
     P.oldData (P.payload m2) = P.oldData (P.payload m1) /\
     P.newData (P.payload m2) = P.newData (P.payload m1)).
Proof.
  intros c s s' m1 m2 ok1 ok2.
  destruct (processChange_effect c s) as [Hok [Hsends _]].
  split; [exact Hok |]. split; [apply new_sends_eq |].
  split.
  - unfold P.delivered at 1. subst s'. rewrite Hsends, delivered_app.
    unfold sends_of. fold m1 m2 ok1 ok2.
    destruct ok1, (P.isCriticalChange c); try destruct ok2; reflexivity.
  - repeat split.
Qed.

Lemma string_length_append (a b : string) :
  String.length (a ++ b) = (String.length a + String.length b)%nat.
Proof. induction a as [| ch a IH]; simpl; [reflexivity | now rewrite IH]. Qed.

Lemma critical_prefix_differs (k : string) : "CRITICAL_" ++ k <> k.
Proof.
  intros H. apply (f_equal String.length) in H.
  rewrite string_length_append in H. simpl in H. lia.
Qed.

(** A deletion on the identity table, as the DELETE trigger records it. *)
Definition user_delete : P.Change :=
  {| P.id := 8;
     P.table_name := "users";
     P.operation_type := "DELETE";
     P.record_id := Some "42";
     P.old_data := JS.VObj 1 [("id", JS.VNum 42)];
     P.new_data := JS.VNull;
     P.user_id := Some 42;
     P.change_timestamp := 1002;
     P.processed := false |}.

(** A running service over the table [rows], with an empty history and
    a broker and a store that answer every call. *)
Definition idle (rows : list P.Change) (cursor : Z) : P.State :=
  {| P.db := rows;
     P.lastProcessedId := cursor;
     P.changesProcessed := 0;
     P.sends := [];
     P.send_outcomes := [];
     P.db_outcomes := [];
     P.out := [];
     P.now := 1005 |}.

(** Counterexample to C6 as stated: for the deletion of user 42 the
    primary message is keyed ["users_42"], not ["users:42"], and the
    high-priority message carries another key, ["CRITICAL_users_42"]. *)
Lemma partition_key_counterexample :
  exists m1 m2,
    new_sends user_delete (idle [] 0) = [(m1, true); (m2, true)] /\
    P.topic m1 = "database-events" /\
    P.topic m2 = "critical-database-events" /\
    P.key m1 = "users_42" /\
    P.key m1 <> "users:42" /\
    P.key m2 = "CRITICAL_users_42" /\
    P.key m2 <> P.key m1.
Proof.
  eexists. eexists. split; [reflexivity |].
  repeat split; simpl; discriminate.
Qed.

(** C6, amended. The key of a primary message is [table_recordId]
    (joined by an underscore); the key of the high-priority message of
    the same row is that key behind the prefix [CRITICAL_], so the two
    differ. Each key depends on the table and the record id only: two
    rows of the same entity get the same key on each topic. *)
Theorem partition_key_per_entity :
  forall (c : P.Change) (s : P.State) (m : P.KafkaMessage) (ok : bool),
    In (m, ok) (new_sends c s) ->
    let k := P.table_name c ++ "_" ++ JS.template (P.record_id c) in
    ((P.topic m = "database-events" /\ P.key m = k) \/
     (P.topic m = "critical-database-events" /\ P.key m = "CRITICAL_" ++ k /\
      P.key m <> k))
    /\
    (forall (c' : P.Change) (s' : P.State) (m' : P.KafkaMessage) (ok' : bool),
       P.table_name c' = P.table_name c ->
       P.record_id c' = P.record_id c ->
       In (m', ok') (new_sends c' s') ->
       P.topic m' = P.topic m ->
       P.key m' = P.key m).
Proof.
  intros c s m ok Hin k.
  rewrite new_sends_eq in Hin. unfold sends_of in Hin.
  assert (Hm : (m = primary_message c (P.now s)) \/
               (m = escalated_message c (P.now s))).
  { destruct Hin as [H | H]; [left; congruence |].
    destruct (P.isCriticalChange c); [| contradiction].
    destruct H as [H | []]. right; congruence. }
  split.
  - destruct Hm as [-> | ->]; [left | right]; repeat split.
    apply critical_prefix_differs.
  - intros c' s' m' ok' Ht Hr Hin' Htopic.
    rewrite new_sends_eq in Hin'. unfold sends_of in Hin'.
    assert (Hm' : (m' = primary_message c' (P.now s')) \/
                  (m' = escalated_message c' (P.now s'))).
    { destruct Hin' as [H | H]; [left; congruence |].
      destruct (P.isCriticalChange c'); [| contradiction].
      destruct H as [H | []]. right; congruence. }
    destruct Hm as [-> | ->], Hm' as [-> | ->]; simpl in Htopic |- *;
      try discriminate;
      unfold P.change_key, P.critical_key; simpl; now rewrite Ht, Hr.
Qed.

Lemma partition_key_per_entity_witness :
  P.key (primary_message user_delete 1005) = "users_42".
Proof.
  assert (Hin : In (primary_message user_delete 1005, true)
                   (new_sends user_delete (idle [] 0)))
    by (left; reflexivity).
  destruct (partition_key_per_entity user_delete (idle [] 0)
              (primary_message user_delete 1005) true Hin)
    as [[[_ Hk] | [Ht _]] _].
  - exact Hk.
  - discriminate Ht.
Defined.

(* ================================================================== *)
(** * Properties of the poller *)
(* ================================================================== *)

(** The [producer.send] calls of the loop over a batch. *)
Fixpoint batch_sends (changes : list P.Change) (t : Z) (outcomes : list bool)
  : list (P.KafkaMessage * bool) :=
  match changes with
  | [] => []
  | c :: rest =>
      (sends_of c t outcomes
       ++ batch_sends rest t (outcomes_after c outcomes))%list
  end.

Fixpoint batch_outcomes_after (changes : list P.Change)
  (outcomes : list bool) : list bool :=
  match changes with
  | [] => outcomes
  | c :: rest => batch_outcomes_after rest (outcomes_after c outcomes)
  end.

(** One turn of the loop: the row is handed to [processChange], counted,
    and the cursor is set to its id, whatever the broker answered. *)
Lemma poll_step_effect (c : P.Change) (s : P.State) :
  fst (P.poll_step c s) = JS.Ok tt /\
  P.sends (snd (P.poll_step c s))
  = (P.sends s ++ sends_of c (P.now s) (P.send_outcomes s))%list /\
  P.send_outcomes (snd (P.poll_step c s))
  = outcomes_after c (P.send_outcomes s) /\
  P.db (snd (P.poll_step c s)) = P.db s /\
  P.lastProcessedId (snd (P.poll_step c s)) = P.id c /\
  P.changesProcessed (snd (P.poll_step c s)) = P.changesProcessed s + 1 /\
  P.db_outcomes (snd (P.poll_step c s)) = P.db_outcomes s /\
  P.now (snd (P.poll_step c s)) = P.now s.
Proof.
  pose proof (processChange_effect c s) as H.
  unfold P.poll_step, Eff.bind, Eff.modify.
  destruct (P.processChange c s) as [r s1]. simpl in H.
  destruct H as [-> [Hs [Ho [Hd [Hl [Hc [Hdo Hn]]]]]]]. simpl.
  repeat split; assumption || (now rewrite Hc).
Qed.

Lemma last_cons {A : Type} (l : list A) :
  forall x d : A, last (x :: l) d = last l x.
Proof.
  induction l as [| a l IH]; intros x d; [reflexivity |].
  change (last (x :: a :: l) d) with (last (a :: l) d).
  now rewrite (IH a d), (IH a x).
Qed.

(** The whole loop. *)
Lemma loop_effect (changes : list P.Change) :
  forall s : P.State,
    let s' := snd (Eff.for_of changes P.poll_step s) in
    fst (Eff.for_of changes P.poll_step s) = JS.Ok tt /\
    P.sends s'
    = (P.sends s ++ batch_sends changes (P.now s) (P.send_outcomes s))%list /\
    P.send_outcomes s' = batch_outcomes_after changes (P.send_outcomes s) /\
    P.db s' = P.db s /\
    P.lastProcessedId s'
    = last (map P.id changes) (P.lastProcessedId s) /\
    P.changesProcessed s'
    = P.changesProcessed s + Z.of_nat (length changes) /\
    P.db_outcomes s' = P.db_outcomes s /\
    P.now s' = P.now s.
Proof.
  induction changes as [| c rest IH]; intros s.
  - simpl. rewrite app_nil_r, Z.add_0_r. repeat split.
  - pose proof (poll_step_effect c s) as H.
    cbn [Eff.for_of]. unfold Eff.bind.
    destruct (P.poll_step c s) as [r s1]. simpl in H.
    destruct H as [-> [Hs [Ho [Hd [Hl [Hc [Hdo Hn]]]]]]].
    specialize (IH s1). cbv zeta in IH.
    destruct IH as [I0 [I1 [I2 [I3 [I4 [I5 [I6 I7]]]]]]].
    cbv zeta. repeat split.
    + exact I0.
    + rewrite I1, Hs, Hn, Ho. cbn [batch_sends]. now rewrite app_assoc.
    + rewrite I2, Ho. reflexivity.
    + congruence.
    + rewrite I4, Hl. cbn [map]. now rewrite last_cons.
    + rewrite I5, Hc. cbn [length]. lia.
    + congruence.
    + congruence.
Qed.

(** ** The batch a cycle reads *)

Section Batch.

Variable cursor : Z.
Variable rows : list P.Change.

Definition by_id (a b : P.Change) : Prop := P.id a <= P.id b.

Lemma insert_by_id_In (c x : P.Change) (l : list P.Change) :
  In x (P.insert_by_id c l) <-> x = c \/ In x l.
Proof.
  induction l as [| d l IH]; simpl.
  - intuition.
  - destruct (P.id c <=? P.id d); simpl; [intuition |].
    rewrite IH. intuition.
Qed.

Lemma order_by_id_In (x : P.Change) (l : list P.Change) :
  In x (P.order_by_id l) <-> In x l.
Proof.
  unfold P.order_by_id. induction l as [| d l IH]; simpl; [tauto |].
  rewrite insert_by_id_In, IH. intuition.
Qed.

Lemma insert_by_id_sorted (c : P.Change) (l : list P.Change) :
  StronglySorted by_id l ->
  StronglySorted by_id (P.insert_by_id c l).
Proof.
  induction 1 as [| d l Hs IH Hall]; simpl.
  - constructor; constructor.
  - destruct (Z.leb_spec (P.id c) (P.id d)) as [Hle | Hlt].
    + constructor; [constructor; assumption |].
      constructor; [exact Hle |].
      eapply Forall_impl; [| exact Hall]. unfold by_id. intros; lia.
    + constructor; [exact IH |].
      apply Forall_forall. intros x Hx. apply insert_by_id_In in Hx.
      destruct Hx as [-> | Hx]; [unfold by_id; lia |].
      rewrite Forall_forall in Hall. now apply Hall.
Qed.

Lemma order_by_id_sorted (l : list P.Change) :
  StronglySorted by_id (P.order_by_id l).
Proof.
  unfold P.order_by_id. induction l as [| d l IH]; simpl.
  - constructor.
  - now apply insert_by_id_sorted.
Qed.

Lemma firstn_incl (n : nat) (l : list P.Change) (x : P.Change) :
  In x (firstn n l) -> In x l.
Proof.
  revert n. induction l as [| d l IH]; intros [| n]; simpl; try tauto.
  intros [-> | H]; [now left | right; eauto].
Qed.

Lemma firstn_sorted (n : nat) (l : list P.Change) :
  StronglySorted by_id l ->
  StronglySorted by_id (firstn n l).
Proof.
  intros H. revert n. induction H as [| d l Hs IH Hall]; intros [| n]; simpl;
    try constructor.
  - apply IH.
  - apply Forall_forall. intros x Hx. apply firstn_incl in Hx.
    rewrite Forall_forall in Hall. now apply Hall.
Qed.

(** The batch is in ascending id order. *)
Lemma select_sorted :
  StronglySorted by_id (P.select_unprocessed cursor rows).
Proof. apply firstn_sorted, order_by_id_sorted. Qed.

(** Every row of the batch is an unprocessed row of the table beyond
    the cursor. *)
Lemma select_In (c : P.Change) :
  In c (P.select_unprocessed cursor rows) ->
  In c rows /\ cursor < P.id c /\ P.processed c = false.
Proof.
  unfold P.select_unprocessed. intros H.
  apply firstn_incl, order_by_id_In, filter_In in H.
  destruct H as [Hin H]. apply andb_true_iff in H. destruct H as [Hc Hp].
  apply Z.ltb_lt in Hc. apply negb_true_iff in Hp. auto.
Qed.

End Batch.

Lemma last_In {A : Type} (l : list A) :
  forall x d : A, In (last (x :: l) d) (x :: l).
Proof.
  induction l as [| a l IH]; intros x d; [now left |].
  right. change (last (x :: a :: l) d) with (last (a :: l) d). apply IH.
Qed.

(** In an ascending list the last row has the largest id. *)
Lemma sorted_last_max (l : list P.Change) (d c : P.Change) :
  StronglySorted by_id l -> In c l -> P.id c <= P.id (last l d).
Proof.
  induction 1 as [| x l Hs IH Hall]; intros Hin; [contradiction |].
  destruct l as [| y l].
  - destruct Hin as [-> | []]. simpl. lia.
  - change (last (x :: y :: l) d) with (last (y :: l) d).
    destruct Hin as [-> | Hin]; [| now apply IH].
    rewrite Forall_forall in Hall.
    exact (Hall _ (last_In l y d)).
Qed.

(** ** [Math.max] over the ids of a batch *)

Lemma fold_max_ge (l : list Z) :
  forall a, a <= fold_left Z.max l a /\
            (forall x, In x l -> x <= fold_left Z.max l a).
Proof.
  induction l as [| y l IH]; intros a; simpl.
  - split; [lia | contradiction].
  - destruct (IH (Z.max a y)) as [H1 H2]. split; [lia |].
    intros x [-> | Hx]; [lia | auto].
Qed.

Lemma fold_max_In (l : list Z) :
  forall a, fold_left Z.max l a = a \/ In (fold_left Z.max l a) l.
Proof.
  induction l as [| y l IH]; intros a; simpl; [now left |].
  destruct (IH (Z.max a y)) as [H | H]; [| now right; right].
  rewrite H. destruct (Z.max_spec a y) as [[_ ->] | [_ ->]]; auto.
Qed.

(** On an ascending batch [Math.max] of the ids is the id of the last
    row, the value the loop leaves in the cursor. *)
Lemma Math_max_sorted (c0 : P.Change) (rest : list P.Change) :
  StronglySorted by_id (c0 :: rest) ->
  P.Math_max (P.id c0) (map P.id rest) = P.id (last (c0 :: rest) c0).
Proof.
  intros Hs. unfold P.Math_max.
  assert (Hlast : In (last (c0 :: rest) c0) (c0 :: rest)) by apply last_In.
  apply Z.le_antisymm.
  - destruct (fold_max_In (map P.id rest) (P.id c0)) as [-> | H].
    + apply sorted_last_max; [exact Hs | now left].
    + apply in_map_iff in H. destruct H as [c [<- Hc]].
      apply sorted_last_max; [exact Hs | now right].
  - destruct (fold_max_ge (map P.id rest) (P.id c0)) as [H1 H2].
    destruct Hlast as [<- | Hin]; [exact H1 |].
    apply H2. now apply in_map.
Qed.

(** ** One cycle *)

Lemma last_map_id (l : list P.Change) :
  forall (x e : P.Change) (d : Z),
    last (map P.id (x :: l)) d = P.id (last (x :: l) e).
Proof.
  induction l as [| a l IH]; intros x e d; [reflexivity |].
  change (last (map P.id (x :: a :: l)) d) with (last (map P.id (a :: l)) d).
  change (last (x :: a :: l) e) with (last (a :: l) e).
  apply IH.
Qed.

(** What [pollForChanges] leaves behind, case by case: the read fails;
    the batch is empty; the batch is processed and the closing UPDATE
    succeeds or fails. The answers of the broker play no part in the
    cursor, the counter or the UPDATE. *)
Lemma cycle_effect (s : P.State) :
  let batch := P.select_unprocessed (P.lastProcessedId s) (P.db s) in
  let s' := P.cycle s in
  fst (P.pollForChanges s) = JS.Ok tt /\
  P.now s' = P.now s /\
  if P.next_outcome (P.db_outcomes s) then
    match batch with
    | [] =>
        P.db s' = P.db s /\
        P.lastProcessedId s' = P.lastProcessedId s /\
        P.changesProcessed s' = P.changesProcessed s /\
        P.sends s' = P.sends s
    | c0 :: rest =>
        P.lastProcessedId s' = P.id (last batch c0) /\
        P.changesProcessed s'
        = P.changesProcessed s + Z.of_nat (length batch) /\
        P.sends s'
        = (P.sends s
           ++ batch_sends batch (P.now s) (P.send_outcomes s))%list /\
        P.db s'
        = if P.next_outcome (tl (P.db_outcomes s))
          then P.mark_processed (P.id (last batch c0)) (P.db s)
          else P.db s
    end
  else
    P.db s' = P.db s /\
    P.lastProcessedId s' = P.lastProcessedId s /\
    P.changesProcessed s' = P.changesProcessed s /\
    P.sends s' = P.sends s.
Proof.
  intros batch s'. subst s'. unfold P.cycle.
  destruct (P.pollForChanges s) as [r s'] eqn:E. cbn [fst snd].
  unfold P.pollForChanges, Eff.try_catch, Eff.bind at 1 2, Eff.gets,
    P.db_select in E.
  destruct (P.next_outcome (P.db_outcomes s)) eqn:Eread.
  2: { cbn in E. injection E as <- <-. cbn. repeat split. }
  cbn [P.db P.lastProcessedId P.with_db_call] in E.
  fold batch in E.
  pose proof (select_sorted (P.lastProcessedId s) (P.db s)) as Hsorted.
  fold batch in Hsorted.
  destruct batch as [| c0 rest] eqn:Ebatch.
  - cbn in E. injection E as <- <-. cbn. repeat split.
  - cbn [length Nat.eqb] in E.
    unfold Eff.bind at 1, P.console_log at 1, Eff.modify at 1 in E.
    unfold Eff.bind at 1 in E.
    set (s1 := P.with_out _ (P.with_db_call s)) in E.
    pose proof (loop_effect (c0 :: rest) s1) as H. cbv zeta in H.
    destruct (Eff.for_of (c0 :: rest) P.poll_step s1) as [r2 s2].
    cbn [fst snd] in H.
    destruct H as [-> [Hs [Ho [Hd [Hl [Hc [Hdo Hn]]]]]]].
    cbn [map] in E. unfold P.db_update in E.
    rewrite Hdo in E. subst s1.
    cbn [P.sends P.send_outcomes P.now P.db P.changesProcessed
         P.lastProcessedId P.db_outcomes P.with_out P.with_db_call]
      in Hs, Hd, Hl, Hc, Hn, E.
    rewrite (Math_max_sorted c0 rest Hsorted) in E.
    assert (Hlast : last (map P.id (c0 :: rest)) (P.lastProcessedId s)
                    = P.id (last (c0 :: rest) c0)).
    { apply last_map_id. }
    destruct (P.next_outcome (tl (P.db_outcomes s)));
      injection E as <- <-; cbn;
      rewrite ?Hs, ?Hd, ?Hl, ?Hc, ?Hn, ?Hlast; repeat split; reflexivity.
Qed.

(** ** Publish failures *)

(** An insert into the identity table, captured as change 1. *)
Definition user_insert : P.Change :=
  {| P.id := 1;
     P.table_name := "users";
     P.operation_type := "INSERT";
     P.record_id := Some "42";
     P.old_data := JS.VNull;
     P.new_data := JS.VObj 1 [("id", JS.VNum 42)];
     P.user_id := Some 42;
     P.change_timestamp := 1000;
     P.processed := false |}.

(** A later activity-log row, captured as change 2. *)
Definition activity_insert : P.Change :=
  {| P.id := 2;
     P.table_name := "user_activity_log";
     P.operation_type := "INSERT";
     P.record_id := Some "9";
     P.old_data := JS.VNull;
     P.new_data := JS.VObj 2 [("id", JS.VNum 9)];
     P.user_id := None;
     P.change_timestamp := 1001;
     P.processed := false |}.

(** A service whose broker answers the coming [send] calls as listed. *)
Definition with_broker (answers : list bool) (s : P.State) : P.State :=
  {| P.db := P.db s;
     P.lastProcessedId := P.lastProcessedId s;
     P.changesProcessed := P.changesProcessed s;
     P.sends := P.sends s;
     P.send_outcomes := answers;
     P.db_outcomes := P.db_outcomes s;
     P.out := P.out s;
     P.now := P.now s |}.

(** Counterexample to C1 as stated: the only send of the cycle fails,
    nothing is delivered, and yet the row is marked processed, the
    cursor stands on its id and the next cycle reads nothing. *)
Lemma failed_publish_counterexample :
  let s := with_broker [false] (idle [user_insert] 0) in
  let s' := P.cycle s in
  P.select_unprocessed (P.lastProcessedId s) (P.db s) = [user_insert] /\
  P.sends s' = [(primary_message user_insert 1005, false)] /\
  P.delivered s' = [] /\
  P.out s'
  = [P.ConsoleProcessing 1;
     P.ConsoleEntry (P.changeLogEntry user_insert 1005);
     P.LogDatabaseChange "INSERT" "users" (Some "42");
     P.LogSystemEvent "CDC_KAFKA_SEND_ERROR" "error"] /\
  P.db s' = [P.set_processed user_insert] /\
  P.lastProcessedId s' = 1 /\
  P.select_unprocessed (P.lastProcessedId s') (P.db s') = [].
Proof. repeat split; vm_compute; reflexivity. Qed.

(** Every row of a batch has its primary message among the calls of
    the loop. *)
Lemma batch_sends_primary (c : P.Change) (t : Z) (changes : list P.Change) :
  forall outcomes,
    In c changes ->
    exists ok, In (primary_message c t, ok) (batch_sends changes t outcomes).
Proof.
  induction changes as [| d rest IH]; intros outcomes Hin; [contradiction |].
  cbn [batch_sends]. destruct Hin as [-> | Hin].
  - exists (P.next_outcome outcomes). apply in_or_app. left. now left.
  - destruct (IH (outcomes_after d outcomes) Hin) as [ok Hok].
    exists ok. apply in_or_app. now right.
Qed.

Lemma mark_processed_In (m : Z) (rows : list P.Change) (c : P.Change) :
  In c rows -> P.id c <= m -> In (P.set_processed c) (P.mark_processed m rows).
Proof.
  intros Hin Hle. unfold P.mark_processed. apply in_map_iff.
  exists c. split; [| exact Hin].
  apply Z.leb_le in Hle. now rewrite Hle.
Qed.

Lemma mark_processed_ids (m : Z) (rows : list P.Change) :
  map P.id (P.mark_processed m rows) = map P.id rows.
Proof.
  unfold P.mark_processed. rewrite map_map. apply map_ext.
  intros c. now destruct (P.id c <=? m).
Qed.

(** C1, amended. A failed publish does not hold anything back. In every
    cycle whose read succeeds, and whatever the broker answers to the
    sends, each row of the batch is sent on the primary topic, the
    cursor ends on the id of the last row of the batch, at or beyond
    the id of every row of the batch; when the closing UPDATE succeeds
    the row is marked processed; and the next read returns no row with
    that id, so the row is not retried. *)
Theorem failed_publish_not_retried :
  forall (s : P.State) (c : P.Change),
    P.next_outcome (P.db_outcomes s) = true ->
    In c (P.select_unprocessed (P.lastProcessedId s) (P.db s)) ->
    let batch := P.select_unprocessed (P.lastProcessedId s) (P.db s) in
    let s' := P.cycle s in
    (exists ok,
       In (primary_message c (P.now s), ok)
          (skipn (length (P.sends s)) (P.sends s'))) /\
    P.lastProcessedId s' = P.id (last batch c) /\
    P.id c <= P.lastProcessedId s' /\
    P.changesProcessed s' = P.changesProcessed s + Z.of_nat (length batch) /\
    (P.next_outcome (tl (P.db_outcomes s)) = true ->
     In (P.set_processed c) (P.db s')) /\
    (forall r,
       In r (P.select_unprocessed (P.lastProcessedId s') (P.db s')) ->
       P.id r <> P.id c).
Proof.
  intros s c Hread Hin batch s'.
  pose proof (select_In _ _ _ Hin) as [Hrow _].
  pose proof (cycle_effect s) as H. cbv zeta in H. fold s' batch in H.
  rewrite Hread in H. destruct H as [_ [_ H]].
  pose proof (select_sorted (P.lastProcessedId s) (P.db s)) as Hsorted.
  fold batch in Hsorted, Hin.
  destruct batch as [| c0 rest] eqn:Eb; [contradiction |].
  destruct H as [Hcur [Hcount [Hsends Hdb]]].
  assert (Hlast : last (c0 :: rest) c = last (c0 :: rest) c0)
    by now rewrite !last_cons.
  assert (Hle : P.id c <= P.lastProcessedId s').
  { rewrite Hcur. now apply sorted_last_max. }
  repeat split.
  - rewrite Hsends, skipn_app, skipn_all, Nat.sub_diag. cbn [skipn app].
    now apply batch_sends_primary.
  - now rewrite Hlast.
  - exact Hle.
  - exact Hcount.
  - intros Hupd. rewrite Hupd in Hdb. rewrite Hdb, <- Hcur.
    now apply mark_processed_In.
  - intros r Hr. apply select_In in Hr. lia.
Qed.

Lemma failed_publish_not_retried_witness :
  In (P.set_processed user_insert)
     (P.db (P.cycle (with_broker [false] (idle [user_insert] 0)))).
Proof.
  assert (Hread : P.next_outcome
                    (P.db_outcomes (with_broker [false] (idle [user_insert] 0)))
                  = true) by reflexivity.
  assert (Hin : In user_insert
                   (P.select_unprocessed
                      (P.lastProcessedId
                         (with_broker [false] (idle [user_insert] 0)))
                      (P.db (with_broker [false] (idle [user_insert] 0)))))
    by (left; reflexivity).
  destruct (failed_publish_not_retried _ _ Hread Hin)
    as [_ [_ [_ [_ [Hmark _]]]]].
  apply Hmark. reflexivity.
Defined.

(** ** The processed flag *)

(** Counterexample to C2 as stated: in a batch of two rows the send of
    the first fails and the send of the second succeeds; only the second
    row reaches the bus, yet the UPDATE marks both rows processed. *)
Lemma processed_without_publish_counterexample :
  let s := with_broker [false; true] (idle [user_insert; activity_insert] 0) in
  let s' := P.cycle s in
  P.sends s' = [(primary_message user_insert 1005, false);
                (primary_message activity_insert 1005, true)] /\
  P.delivered s' = [primary_message activity_insert 1005] /\
  (forall m, In m (P.delivered s') -> P.cdcId (P.payload m) <> 1) /\
  P.processed user_insert = false /\
  P.db s' = [P.set_processed user_insert; P.set_processed activity_insert].
Proof.
  intros s s'.
  assert (Hd : P.delivered s' = [primary_message activity_insert 1005])
    by (vm_compute; reflexivity).
  split; [vm_compute; reflexivity |].
  split; [exact Hd |].
  split.
  - intros m Hm. rewrite Hd in Hm. destruct Hm as [<- | []].
    cbn. discriminate.
  - split; vm_compute; reflexivity.
Qed.

(** How the flag of one row may differ after a cycle: the row is
    untouched, or it was unprocessed and only its flag is now set. *)
Definition flag_raised (r r' : P.Change) : Prop :=
  r' = r \/ (P.processed r = false /\ r' = P.set_processed r).

Lemma set_processed_idem (r : P.Change) :
  P.processed r = true -> P.set_processed r = r.
Proof. destruct r; simpl; intros ->; reflexivity. Qed.

Lemma flag_raised_refl (rows : list P.Change) : Forall2 flag_raised rows rows.
Proof. induction rows; constructor; [now left | assumption]. Qed.

Lemma mark_processed_raises (m : Z) (rows : list P.Change) :
  Forall2 flag_raised rows (P.mark_processed m rows).
Proof.
  induction rows as [| r rows IH]; simpl; constructor; [| exact IH].
  destruct (P.id r <=? m); [| now left].
  destruct (P.processed r) eqn:Ep.
  - left. now apply set_processed_idem.
  - right. auto.
Qed.

(** C2, amended. The processed flag only goes from false to true: after
    a cycle every row of the table is either unchanged or was
    unprocessed and differs by the flag alone, so a flag that is set
    stays set. The table changes only once the loop has sent every row
    of the batch to the primary topic, and then exactly the rows up to
    the cursor are marked; whether the sends succeeded plays no part. *)
Theorem processed_flag_only_rises :
  forall s : P.State,
    let batch := P.select_unprocessed (P.lastProcessedId s) (P.db s) in
    let s' := P.cycle s in
    Forall2 flag_raised (P.db s) (P.db s') /\
    (forall r r',
       In (r, r') (combine (P.db s) (P.db s')) ->
       P.processed r = true -> P.processed r' = true) /\
    (P.db s' <> P.db s ->
     P.db s' = P.mark_processed (P.lastProcessedId s') (P.db s) /\
     forall c, In c batch ->
       exists ok,
         In (primary_message c (P.now s), ok)
            (skipn (length (P.sends s)) (P.sends s'))).
Proof.
  intros s batch s'.
  pose proof (cycle_effect s) as H. cbv zeta in H. fold s' batch in H.
  destruct H as [_ [_ H]].
  assert (Hcases :
    P.db s' = P.db s \/
    (P.db s' = P.mark_processed (P.lastProcessedId s') (P.db s) /\
     P.sends s'
     = (P.sends s ++ batch_sends batch (P.now s) (P.send_outcomes s))%list)).
  { destruct (P.next_outcome (P.db_outcomes s)); [| left; apply H].
    destruct batch as [| c0 rest]; [left; apply H |].
    destruct H as [Hcur [_ [Hsends Hdb]]].
    destruct (P.next_outcome (tl (P.db_outcomes s))); [| now left].
    right. rewrite Hcur. auto. }
  assert (Hrel : Forall2 flag_raised (P.db s) (P.db s')).
  { destruct Hcases as [-> | [-> _]];
      [apply flag_raised_refl | apply mark_processed_raises]. }
  split; [exact Hrel |]. split.
  - clear Hcases H. induction Hrel as [| r r' l l' Hr _ IH];
      intros a b Hin Hp; [contradiction |].
    destruct Hin as [Heq | Hin]; [| eauto].
    injection Heq as <- <-.
    destruct Hr as [-> | [Hf _]]; congruence.
  - intros Hne. destruct Hcases as [Heq | [Hdb Hsends]]; [contradiction |].
    split; [exact Hdb |].
    intros c Hc. rewrite Hsends, skipn_app, skipn_all, Nat.sub_diag.
    cbn [skipn app]. now apply batch_sends_primary.
Qed.

Lemma processed_flag_only_rises_witness :
  let s := with_broker [false; true] (idle [user_insert; activity_insert] 0) in
  exists ok,
    In (primary_message user_insert (P.now s), ok)
       (skipn (length (P.sends s)) (P.sends (P.cycle s))).
Proof.
  intros s.
  destruct (processed_flag_only_rises s) as [_ [_ H]].
  destruct H as [_ H]; [vm_compute; discriminate |].
  apply H. vm_compute. left; reflexivity.
Defined.

(* ================================================================== *)
(** * Properties of the dispatcher *)
(* ================================================================== *)

(** A [try] whose [catch] only logs a system event always returns. *)
Lemma try_catch_log_returns (body : Eff.M K.State unit)
  (event level : string) (s : K.State) :
  fst (Eff.try_catch body (fun _ => K.logSystemEvent event level) s)
  = JS.Ok tt.
Proof.
  unfold Eff.try_catch. destruct (body s) as [[[] | e] s1]; reflexivity.
Qed.

(** The three handlers keep their failures to themselves. *)
Lemma handlers_return (eventData : JS.value) (message : K.Message)
  (s : K.State) :
  fst (K.processUserEvent eventData message s) = JS.Ok tt /\
  fst (K.processDatabaseEvent eventData message s) = JS.Ok tt /\
  fst (K.processSystemLog eventData message s) = JS.Ok tt.
Proof. repeat split; apply try_catch_log_returns. Qed.

Lemma not_subscribed (topic : string) :
  ~ In topic K.subscribed_topics ->
  String.eqb topic "user-events" = false /\
  String.eqb topic "database-events" = false /\
  String.eqb topic "system-logs" = false.
Proof.
  unfold K.subscribed_topics. simpl. intros H.
  repeat split; apply String.eqb_neq; intros ->; apply H; auto.
Qed.

(** The value of the message parses (an absent value reads as [null]). *)
Definition parses (JSON_parse : string -> option JS.value)
  (message : K.Message) : Prop :=
  K.value_ message = None \/
  exists text v, K.value_ message = Some text /\ JSON_parse text = Some v.

(** C8. [processMessage] returns for every message, so nothing is handed
    back for a retry. When the value does not parse, the only output is
    the error event MESSAGE_PROCESSING_ERROR: no handler has run and
    the message is not counted. When the value parses and the topic is
    not one of the three subscribed ones, the output is the reception
    event, the warning UNKNOWN_TOPIC_MESSAGE and the completion line:
    no handler has run. *)
Theorem processMessage_skips_bad_messages :
  forall (JSON_parse : string -> option JS.value) (topic : string)
         (partition : Z) (message : K.Message) (s : K.State),
    let run := K.processMessage JSON_parse topic partition message s in
    fst run = JS.Ok tt /\
    (forall text,
       K.value_ message = Some text -> JSON_parse text = None ->
       K.out (snd run)
       = (K.out s ++ [K.LogSystemEvent "MESSAGE_PROCESSING_ERROR" "error"])%list
       /\ K.processedMessages (snd run) = K.processedMessages s) /\
    (~ In topic K.subscribed_topics ->
     parses JSON_parse message ->
     K.out (snd run)
     = (K.out s
        ++ [K.LogKafkaEvent "MESSAGE_RECEIVED" topic partition
              (K.offset message) (K.key message);
            K.LogSystemEvent "UNKNOWN_TOPIC_MESSAGE" "warn";
            K.Console "REALTIME_DATA_PROCESSING"
              [("action", JS.VStr "MESSAGE_PROCESSED");
               ("topic", JS.VStr topic);
               ("partition", JS.VNum partition);
               ("offset", JS.VStr (K.offset message));
               ("key", JS.of_opt_string (K.key message));
               ("totalProcessed", JS.VNum (K.processedMessages s + 1))]])%list
     /\ K.processedMessages (snd run) = K.processedMessages s + 1).
Proof.
  intros JSON_parse topic partition message s run.
  split; [apply try_catch_log_returns |]. split.
  - intros text Hv Hp. subst run.
    unfold K.processMessage, Eff.try_catch, Eff.bind at 1, K.parse_value.
    rewrite Hv, Hp. split; reflexivity.
  - intros Htopic Hparse. subst run.
    destruct (not_subscribed topic Htopic) as [H1 [H2 H3]].
    unfold K.processMessage, Eff.try_catch, Eff.bind at 1, K.parse_value.
    rewrite H1, H2, H3.
    destruct Hparse as [-> | [text [v [-> ->]]]]; cbn;
      rewrite <- !app_assoc; split; reflexivity.
Qed.

(** A stand-in for [JSON.parse] that accepts the text [null] only. *)
Definition parse_null_only (text : string) : option JS.value :=
  if String.eqb text "null" then Some JS.VNull else None.

Lemma processMessage_skips_bad_messages_witness :
  let message := {| K.key := Some "users_42";
                    K.value_ := Some "{oops";
                    K.offset := "17";
                    K.timestamp := "1005" |} in
  let s := {| K.processedMessages := 3; K.out := [] |} in
  K.processMessage parse_null_only "database-events" 0 message s
  = (JS.Ok tt,
     {| K.processedMessages := 3;
        K.out := [K.LogSystemEvent "MESSAGE_PROCESSING_ERROR" "error"] |}).
Proof.
  intros message s.
  destruct (processMessage_skips_bad_messages
              parse_null_only "database-events" 0 message s)
    as [Hret [Hbad _]].
  destruct (Hbad "{oops" eq_refl eq_refl) as [Hout Hcount].
  destruct (K.processMessage parse_null_only "database-events" 0 message s)
    as [r [n o]].
  simpl in Hret, Hout, Hcount. now subst.
Defined.

(* ================================================================== *)
(** * The pipeline on concrete inputs *)
(* ================================================================== *)

(** An insert of user 42 is captured as change 1; one cycle publishes
    one envelope keyed ["users_42"] on the primary topic, nothing on the
    high-priority topic, marks the row and moves the cursor to 1. *)
Example cycle_publishes_insert :
  let s' := P.cycle (idle [user_insert] 0) in
  map (fun m => (P.topic m, P.key m)) (P.delivered s')
  = [("database-events", "users_42")] /\
  P.lastProcessedId s' = 1 /\
  P.changesProcessed s' = 1 /\
  map P.processed (P.db s') = [true].
Proof. repeat split; vm_compute; reflexivity. Qed.

(** A deletion of user 42 goes to both topics, the second time tagged. *)
Example cycle_escalates_delete :
  let s' := P.cycle (idle [user_delete] 7) in
  map (fun m => (P.topic m, P.key m,
                 P.securityImplications (P.payload m)))
      (P.delivered s')
  = [("database-events", "users_42", None);
     ("critical-database-events", "CRITICAL_users_42",
      Some "USER_ACCOUNT_DELETED")] /\
  P.lastProcessedId s' = 8.
Proof. repeat split; vm_compute; reflexivity. Qed.

(** When the store refuses the read the cycle changes nothing but the
    log. *)
Example cycle_read_failure :
  let s := {| P.db := [user_insert];
              P.lastProcessedId := 0;
              P.changesProcessed := 0;
              P.sends := [];
              P.send_outcomes := [];
              P.db_outcomes := [false];
              P.out := [];
              P.now := 1005 |} in
  let s' := P.cycle s in
  P.db s' = P.db s /\ P.lastProcessedId s' = 0 /\ P.sends s' = [] /\
  P.out s' = [P.LogSystemEvent "CDC_POLL_ERROR" "error"].
Proof. repeat split; vm_compute; reflexivity. Qed.

(** [ORDER BY id ASC LIMIT 100] on rows stored out of order, one of them
    already processed and one behind the cursor. *)
Example select_orders_and_filters :
  map P.id
      (P.select_unprocessed 1
         [activity_insert; P.set_processed user_delete; user_delete;
          user_insert; password_update])
  = [2; 7; 8].
Proof. vm_compute. reflexivity. Qed.

(** A stand-in for [JSON.parse] that knows one text: the value of the
    envelope of the deletion of user 42. *)
Definition parse_delete_envelope (text : string) : option JS.value :=
  if String.eqb text "<user_delete>"
  then Some (received 5 (P.changeLogEntry user_delete 1005))
  else None.

(** On its own topic the envelope reaches [processDatabaseEvent], which
    classifies it and raises the critical line. *)
Example dispatch_database_event :
  let message := {| K.key := Some "users_42";
                    K.value_ := Some "<user_delete>";
                    K.offset := "0";
                    K.timestamp := "1005" |} in
  let run := K.processMessage parse_delete_envelope "database-events" 0
               message {| K.processedMessages := 0; K.out := [] |} in
  fst run = JS.Ok tt /\
  K.processedMessages (snd run) = 1 /\
  map (fun o => match o with
                | K.Console category fields =>
                    (category, JS.lookup "changeType" fields)
                | K.LogKafkaEvent eventType _ _ _ _ => (eventType, JS.VUndefined)
                | K.LogSystemEvent event _ => (event, JS.VUndefined)
                end)
      (K.out (snd run))
  = [("MESSAGE_RECEIVED", JS.VUndefined);
     ("DATABASE_CHANGE_PROCESSING", JS.VStr "USER_DATA_CHANGE");
     ("CRITICAL_DATABASE_CHANGE", JS.VStr "USER_DATA_CHANGE");
     ("REALTIME_DATA_PROCESSING", JS.VUndefined)].
Proof. repeat split; vm_compute; reflexivity. Qed.

(** A [null] value reaches the handler, whose own [catch] absorbs the
    TypeError of [eventData.type]. *)
Example dispatch_null_user_event :
  let message := {| K.key := None;
                    K.value_ := None;
                    K.offset := "4";
                    K.timestamp := "1005" |} in
  let run := K.processMessage parse_null_only "user-events" 2
               message {| K.processedMessages := 0; K.out := [] |} in
  fst run = JS.Ok tt /\
  K.out (snd run)
  = [K.LogKafkaEvent "MESSAGE_RECEIVED" "user-events" 2 "4" None;
     K.LogSystemEvent "USER_EVENT_PROCESSING_ERROR" "error";
     K.Console "REALTIME_DATA_PROCESSING"
       [("action", JS.VStr "MESSAGE_PROCESSED");
        ("topic", JS.VStr "user-events");
        ("partition", JS.VNum 2);
        ("offset", JS.VStr "4");
        ("key", JS.VNull);
        ("totalProcessed", JS.VNum 1)]].
Proof. repeat split; vm_compute; reflexivity. Qed.

(** A login from the loopback address is scored LOW, one from elsewhere
    MEDIUM. *)
Example login_risk_levels :
  K.assessLoginRisk (JS.VObj 1 [("ipAddress", JS.VStr "127.0.0.1")])
  = JS.Ok "LOW" /\
  K.assessLoginRisk (JS.VObj 1 [("ipAddress", JS.VStr "::1")])
  = JS.Ok "MEDIUM" /\
  K.assessLoginRisk JS.VNull = JS.Throw "TypeError".
Proof. repeat split. Qed.

(* ================================================================== *)
(** * The polling loop over many cycles *)
(* ================================================================== *)

(** The state after [n] expirations of the polling timer. *)
Definition after_ticks (n : nat) (s : P.State) : P.State :=
  snd (P.startPolling n s).

(** The [producer.send] calls made between two states of one run. *)
Definition sent_during (s s' : P.State) : list (P.KafkaMessage * bool) :=
  skipn (length (P.sends s)) (P.sends s').

(** The change-log id carried by a message. *)
Definition change_id (x : P.KafkaMessage * bool) : Z :=
  P.cdcId (P.payload (fst x)).

Definition on_primary_topic (x : P.KafkaMessage * bool) : bool :=
  String.eqb (P.topic (fst x)) "database-events".

(** The ids of the change rows sent on the primary topic, in call
    order. *)
Definition primary_ids (l : list (P.KafkaMessage * bool)) : list Z :=
  map change_id (filter on_primary_topic l).

Lemma poll_catch_unused :
  forall (s : P.State) (handler : string -> Eff.M P.State unit),
    fst (P.pollForChanges s) = JS.Ok tt /\
    Eff.try_catch P.pollForChanges handler s = P.pollForChanges s.
Proof.
  intros s handler.
  destruct (cycle_effect s) as [Hok _]. split; [exact Hok |].
  unfold Eff.try_catch. destruct (P.pollForChanges s) as [[[] | e] s'];
    [reflexivity | discriminate Hok].
Qed.

(** X1. [pollForChanges] returns whatever the store and the broker
    answer: every failure ends in one of its [catch] blocks. The
    [catch] that [startPolling] wraps around it therefore never runs,
    whatever its handler. *)
Theorem pollForChanges_never_throws :
  forall (s : P.State) (handler : string -> Eff.M P.State unit),
    fst (P.pollForChanges s) = JS.Ok tt /\
    Eff.try_catch P.pollForChanges handler s = P.pollForChanges s.
Proof. exact poll_catch_unused. Qed.

Lemma after_ticks_S (n : nat) (s : P.State) :
  after_ticks (S n) s = after_ticks n (P.cycle s).
Proof.
  unfold after_ticks. cbn [P.startPolling]. unfold Eff.bind.
  destruct (poll_catch_unused s
              (fun _ => P.logSystemEvent "CDC_POLLING_ERROR" "error"))
    as [Hok ->].
  unfold P.cycle. destruct (P.pollForChanges s) as [r s1].
  simpl in Hok. subst r. reflexivity.
Qed.

Lemma startPolling_returns (n : nat) :
  forall s, fst (P.startPolling n s) = JS.Ok tt.
Proof.
  induction n as [| n IH]; intros s; [reflexivity |].
  cbn [P.startPolling]. unfold Eff.bind.
  destruct (poll_catch_unused s
              (fun _ => P.logSystemEvent "CDC_POLLING_ERROR" "error"))
    as [Hok ->].
  destruct (P.pollForChanges s) as [r s1]. simpl in Hok. subst r.
  apply IH.
Qed.

(** ** Which rows a cycle sends *)

Lemma sends_of_ids (c : P.Change) (t : Z) (outcomes : list bool) :
  Forall (fun x => change_id x = P.id c) (sends_of c t outcomes) /\
  primary_ids (sends_of c t outcomes) = [P.id c].
Proof.
  unfold sends_of, primary_ids.
  destruct (P.isCriticalChange c); split; repeat constructor.
Qed.

Lemma primary_ids_app (l1 l2 : list (P.KafkaMessage * bool)) :
  primary_ids (l1 ++ l2) = (primary_ids l1 ++ primary_ids l2)%list.
Proof. unfold primary_ids. now rewrite filter_app, map_app. Qed.

Lemma batch_sends_ids (changes : list P.Change) (t : Z) :
  forall outcomes,
    primary_ids (batch_sends changes t outcomes) = map P.id changes /\
    Forall (fun x => In (change_id x) (map P.id changes))
           (batch_sends changes t outcomes).
Proof.
  induction changes as [| c rest IH]; intros outcomes.
  - split; constructor.
  - cbn [batch_sends map]. rewrite primary_ids_app.
    destruct (sends_of_ids c t outcomes) as [Hall ->].
    destruct (IH (outcomes_after c outcomes)) as [-> Hrest].
    split; [reflexivity |].
    apply Forall_app. split.
    + eapply Forall_impl; [| exact Hall]. intros x ->. now left.
    + eapply Forall_impl; [| exact Hrest]. intros x Hx. now right.
Qed.

(** The batch of a cycle: the rows read, or nothing when the read
    fails. *)
Definition batch_of (s : P.State) : list P.Change :=
  if P.next_outcome (P.db_outcomes s)
  then P.select_unprocessed (P.lastProcessedId s) (P.db s)
  else [].

Lemma cycle_sends (s : P.State) :
  P.sends (P.cycle s)
  = (P.sends s
     ++ batch_sends (batch_of s) (P.now s) (P.send_outcomes s))%list.
Proof.
  pose proof (cycle_effect s) as H. cbv zeta in H.
  destruct H as [_ [_ H]]. unfold batch_of.
  destruct (P.next_outcome (P.db_outcomes s)).
  - destruct (P.select_unprocessed _ _) as [| c0 rest].
    + destruct H as [_ [_ [_ ->]]]. now rewrite app_nil_r.
    + destruct H as [_ [_ [-> _]]]. reflexivity.
  - destruct H as [_ [_ [_ ->]]]. now rewrite app_nil_r.
Qed.

Lemma sent_during_cycle (s : P.State) :
  sent_during s (P.cycle s)
  = batch_sends (batch_of s) (P.now s) (P.send_outcomes s).
Proof.
  unfold sent_during. rewrite cycle_sends, skipn_app, skipn_all, Nat.sub_diag.
  reflexivity.
Qed.

Lemma batch_of_In (s : P.State) (c : P.Change) :
  In c (batch_of s) ->
  In c (P.db s) /\ P.lastProcessedId s < P.id c /\ P.processed c = false.
Proof.
  unfold batch_of. destruct (P.next_outcome (P.db_outcomes s));
    [apply select_In | contradiction].
Qed.

Lemma batch_of_sorted (s : P.State) : StronglySorted by_id (batch_of s).
Proof.
  unfold batch_of. destruct (P.next_outcome (P.db_outcomes s));
    [apply select_sorted | constructor].
Qed.

(** The cursor after a cycle: the id of the last row of the batch, or
    the old cursor when the batch is empty. *)
Lemma cycle_cursor (s : P.State) :
  P.lastProcessedId (P.cycle s)
  = last (map P.id (batch_of s)) (P.lastProcessedId s).
Proof.
  pose proof (cycle_effect s) as H. cbv zeta in H.
  destruct H as [_ [_ H]]. unfold batch_of.
  destruct (P.next_outcome (P.db_outcomes s)).
  - destruct (P.select_unprocessed _ _) as [| c0 rest] eqn:E.
    + now destruct H as [_ [-> _]].
    + destruct H as [-> _]. symmetry. apply last_map_id.
  - now destruct H as [_ [-> _]].
Qed.

Lemma cycle_cursor_bounds (s : P.State) :
  P.lastProcessedId s <= P.lastProcessedId (P.cycle s) /\
  forall c, In c (batch_of s) ->
            P.lastProcessedId s < P.id c <= P.lastProcessedId (P.cycle s).
Proof.
  rewrite cycle_cursor.
  pose proof (batch_of_sorted s) as Hs.
  destruct (batch_of s) as [| c0 rest] eqn:E.
  - split; [simpl; lia | contradiction].
  - rewrite (last_map_id rest c0 c0).
    assert (Hlast : In (last (c0 :: rest) c0) (batch_of s))
      by (rewrite E; apply last_In).
    apply batch_of_In in Hlast.
    split; [lia |].
    intros c Hc. split.
    + assert (Hc' : In c (batch_of s)) by now rewrite E.
      apply batch_of_In in Hc'. lia.
    + now apply sorted_last_max.
Qed.

Lemma sorted_ids (l : list P.Change) :
  StronglySorted by_id l -> StronglySorted Z.le (map P.id l).
Proof.
  induction 1 as [| c l Hs IH Hall]; simpl; constructor; [exact IH |].
  apply Forall_map. exact Hall.
Qed.

(** X3. In one cycle the rows go to the primary topic one message each,
    in ascending id order, and every id sent lies above the cursor the
    cycle started from and at or below the cursor it leaves. *)
Theorem cycle_sends_in_id_order :
  forall s : P.State,
    primary_ids (sent_during s (P.cycle s)) = map P.id (batch_of s) /\
    StronglySorted Z.le (primary_ids (sent_during s (P.cycle s))) /\
    Forall (fun i => P.lastProcessedId s < i <= P.lastProcessedId (P.cycle s))
           (primary_ids (sent_during s (P.cycle s))).
Proof.
  intros s. rewrite sent_during_cycle.
  destruct (batch_sends_ids (batch_of s) (P.now s) (P.send_outcomes s))
    as [-> _].
  split; [reflexivity |]. split.
  - apply sorted_ids, batch_of_sorted.
  - apply Forall_map, Forall_forall. intros c Hc.
    now apply cycle_cursor_bounds.
Qed.

(** ** Runs: cycles interleaved with captures *)

(** A trigger appends the row [r] to the change log. *)
Definition capture (r : P.Change) (s : P.State) : P.State :=
  P.with_db (fun rows => rows ++ [r])%list s.

(** A run of the service: any number of polling cycles, with the Change
    Recorder appending rows under fresh keys in between. *)
Inductive run : P.State -> P.State -> Prop :=
| run_done (s : P.State) : run s s
| run_poll (s s' : P.State) : run (P.cycle s) s' -> run s s'
| run_capture (s s' : P.State) (r : P.Change) :
    ~ In (P.id r) (map P.id (P.db s)) ->
    run (capture r s) s' -> run s s'.

(** The polling loop alone is a run. *)
Lemma after_ticks_run (n : nat) : forall s, run s (after_ticks n s).
Proof.
  induction n as [| n IH]; intros s.
  - apply run_done.
  - rewrite after_ticks_S. apply run_poll, IH.
Qed.

(** Along a run the history only grows, and everything added carries
    an id between the two cursors. *)
Lemma run_sends (s s' : P.State) :
  run s s' ->
  P.lastProcessedId s <= P.lastProcessedId s' /\
  exists l,
    P.sends s' = (P.sends s ++ l)%list /\
    Forall (fun x => P.lastProcessedId s < change_id x
                     <= P.lastProcessedId s') l.
Proof.
  induction 1 as [s | s s' _ IH | s s' r _ _ IH].
  - split; [lia |]. exists []. split; [now rewrite app_nil_r | constructor].
  - destruct IH as [Hle [l2 [Hs2 Hall2]]].
    destruct (cycle_cursor_bounds s) as [Hle1 Hb].
    split; [lia |].
    exists (batch_sends (batch_of s) (P.now s) (P.send_outcomes s) ++ l2)%list.
    split; [rewrite Hs2, cycle_sends; now rewrite app_assoc |].
    apply Forall_app. split.
    + destruct (batch_sends_ids (batch_of s) (P.now s) (P.send_outcomes s))
        as [_ Hids].
      eapply Forall_impl; [| exact Hids]. intros x Hx.
      apply in_map_iff in Hx. destruct Hx as [c [<- Hc]].
      specialize (Hb c Hc). lia.
    + eapply Forall_impl; [| exact Hall2]. intros x Hx. cbv beta in Hx. lia.
  - exact IH.
Qed.

Lemma sent_during_run (s s' : P.State) :
  run s s' -> P.sends s' = (P.sends s ++ sent_during s s')%list.
Proof.
  intros H. destruct (run_sends s s' H) as [_ [l [Hl _]]].
  unfold sent_during. rewrite Hl, skipn_app, skipn_all, Nat.sub_diag.
  reflexivity.
Qed.

(** X2. The cursor never goes back: along any run, with any failures
    of the store or the broker on the way, it ends at least where it
    was; this holds in particular for [startPolling] over any number of
    timer expirations. *)
Theorem cursor_never_goes_back :
  (forall s s' : P.State,
     run s s' -> P.lastProcessedId s <= P.lastProcessedId s') /\
  (forall (n : nat) (s : P.State),
     P.lastProcessedId s <= P.lastProcessedId (snd (P.startPolling n s))).
Proof.
  split.
  - intros s s' H. now apply run_sends.
  - intros n s. apply (run_sends s (after_ticks n s)), after_ticks_run.
Qed.

(** ** Every row at most once *)

Lemma insert_by_id_perm (c : P.Change) (l : list P.Change) :
  Permutation (P.insert_by_id c l) (c :: l).
Proof.
  induction l as [| d l IH]; simpl; [reflexivity |].
  destruct (P.id c <=? P.id d); [reflexivity |].
  rewrite IH. apply perm_swap.
Qed.

(** [ORDER BY] neither drops nor repeats a row. *)
Lemma order_by_id_perm (l : list P.Change) :
  Permutation (P.order_by_id l) l.
Proof.
  unfold P.order_by_id. induction l as [| d l IH]; simpl; [reflexivity |].
  rewrite insert_by_id_perm. now constructor.
Qed.

Lemma firstn_keeps_NoDup {A : Type} (n : nat) (l : list A) :
  NoDup l -> NoDup (firstn n l).
Proof.
  intros H. revert n. induction H as [| a l Hin Hnd IH]; intros [| n]; simpl;
    try constructor.
  - intros Hx. apply Hin. clear -Hx. revert n Hx.
    induction l as [| b l IHl]; intros [| n]; simpl; try tauto.
    intros [-> | H]; [now left | right; eauto].
  - apply IH.
Qed.

Lemma filter_keeps_NoDup_ids (p : P.Change -> bool) (l : list P.Change) :
  NoDup (map P.id l) -> NoDup (map P.id (filter p l)).
Proof.
  induction l as [| a l IH]; simpl; intros H; [constructor |].
  apply NoDup_cons_iff in H. destruct H as [Hin Hnd].
  destruct (p a); simpl; [| now apply IH].
  constructor; [| now apply IH].
  intros Hx. apply Hin. apply in_map_iff in Hx.
  destruct Hx as [c [Hc Hf]]. apply filter_In in Hf.
  apply in_map_iff. exists c. tauto.
Qed.

Lemma batch_of_NoDup (s : P.State) :
  NoDup (map P.id (P.db s)) -> NoDup (map P.id (batch_of s)).
Proof.
  intros H. unfold batch_of.
  destruct (P.next_outcome (P.db_outcomes s)); [| constructor].
  unfold P.select_unprocessed. rewrite <- firstn_map.
  apply firstn_keeps_NoDup.
  eapply Permutation_NoDup.
  - apply Permutation_map. symmetry. apply order_by_id_perm.
  - now apply filter_keeps_NoDup_ids.
Qed.

(** A cycle keeps the rows of the table and their ids. *)
Lemma cycle_ids (s : P.State) :
  map P.id (P.db (P.cycle s)) = map P.id (P.db s).
Proof.
  pose proof (cycle_effect s) as H. cbv zeta in H. destruct H as [_ [_ H]].
  destruct (P.next_outcome (P.db_outcomes s)).
  - destruct (P.select_unprocessed _ _) as [| c0 rest].
    + now destruct H as [-> _].
    + destruct H as [_ [_ [_ ->]]].
      destruct (P.next_outcome (tl (P.db_outcomes s)));
        [apply mark_processed_ids | reflexivity].
  - now destruct H as [-> _].
Qed.

Lemma capture_NoDup (r : P.Change) (s : P.State) :
  ~ In (P.id r) (map P.id (P.db s)) ->
  NoDup (map P.id (P.db s)) ->
  NoDup (map P.id (P.db (capture r s))).
Proof.
  intros Hfresh Hnd. unfold capture. cbn [P.db P.with_db].
  rewrite map_app. apply NoDup_app; [exact Hnd | repeat constructor; tauto |].
  intros i Hi [<- | []]. contradiction.
Qed.

Lemma run_primary_NoDup (s s' : P.State) :
  run s s' ->
  NoDup (map P.id (P.db s)) ->
  NoDup (primary_ids (sent_during s s')).
Proof.
  induction 1 as [s | s s' Hrun IH | s s' r Hfresh Hrun IH]; intros Hnd.
  - unfold sent_during. rewrite skipn_all. constructor.
  - assert (Hnd' : NoDup (map P.id (P.db (P.cycle s))))
      by now rewrite cycle_ids.
    specialize (IH Hnd').
    destruct (run_sends _ _ Hrun) as [_ [l2 [Hs2 Hall2]]].
    unfold sent_during in IH |- *.
    rewrite Hs2 in IH |- *. rewrite skipn_app, skipn_all, Nat.sub_diag in IH.
    cbn [skipn app] in IH.
    rewrite cycle_sends, <- app_assoc, skipn_app, skipn_all, Nat.sub_diag.
    cbn [skipn app]. rewrite primary_ids_app.
    destruct (batch_sends_ids (batch_of s) (P.now s) (P.send_outcomes s))
      as [-> _].
    apply NoDup_app; [now apply batch_of_NoDup | exact IH |].
    intros i Hi Hi2.
    apply in_map_iff in Hi. destruct Hi as [c [<- Hc]].
    destruct (cycle_cursor_bounds s) as [_ Hb]. specialize (Hb c Hc).
    unfold primary_ids in Hi2. apply in_map_iff in Hi2.
    destruct Hi2 as [x [Hx Hf]]. apply filter_In in Hf. destruct Hf as [Hf _].
    rewrite Forall_forall in Hall2. specialize (Hall2 x Hf). cbv beta in Hall2.
    lia.
  - apply IH. now apply capture_NoDup.
Qed.

(** X4. Along any run each change row is sent on the primary topic at
    most once: when the ids of the table are distinct at the start (they
    are its primary key) and every captured row comes under a fresh id,
    no id occurs twice among the primary messages of the run, whether
    its send succeeded or failed. *)
Theorem sent_at_most_once :
  forall s s' : P.State,
    run s s' ->
    NoDup (map P.id (P.db s)) ->
    NoDup (primary_ids (sent_during s s')).
Proof. exact run_primary_NoDup. Qed.

(** Two cycles with a capture in between, the first send failing. *)
Definition two_cycles : P.State :=
  P.cycle (capture activity_insert
             (P.cycle (with_broker [false] (idle [user_insert] 0)))).

Lemma two_cycles_run :
  run (with_broker [false] (idle [user_insert] 0)) two_cycles.
Proof.
  unfold two_cycles.
  apply run_poll. apply run_capture with (r := activity_insert).
  - vm_compute. intuition discriminate.
  - apply run_poll. apply run_done.
Qed.

Lemma sent_at_most_once_witness :
  NoDup (primary_ids
           (sent_during (with_broker [false] (idle [user_insert] 0))
                        two_cycles)).
Proof.
  apply (sent_at_most_once _ _ two_cycles_run).
  vm_compute. repeat constructor. intuition.
Defined.

Example two_cycles_ids :
  primary_ids (sent_during (with_broker [false] (idle [user_insert] 0))
                           two_cycles) = [1; 2] /\
  map (fun m => P.cdcId (P.payload m)) (P.delivered two_cycles) = [2].
Proof. split; vm_compute; reflexivity. Qed.

(** ** Rows the cursor has passed *)

Lemma behind_cursor_not_sent (s s' : P.State) (i : Z) :
  run s s' -> i <= P.lastProcessedId s ->
  ~ In i (map change_id (sent_during s s')).
Proof.
  intros Hrun Hle Hsent.
  destruct (run_sends s s' Hrun) as [_ [l [Hl Hall]]].
  unfold sent_during in Hsent.
  rewrite Hl, skipn_app, skipn_all, Nat.sub_diag in Hsent.
  cbn [skipn app] in Hsent.
  apply in_map_iff in Hsent. destruct Hsent as [x [Hx Hxl]].
  rewrite Forall_forall in Hall. specialize (Hall x Hxl). cbv beta in Hall.
  lia.
Qed.

(** X5. Whatever a cycle or a capture does afterwards, a row whose id
    is at or below the cursor is never sent on any topic; yet the first
    cycle that reads a batch and whose UPDATE succeeds marks it
    processed. An unprocessed row behind the cursor is thus closed
    without ever being published. *)
Theorem row_behind_cursor_never_sent :
  forall (s : P.State) (r : P.Change),
    In r (P.db s) ->
    P.id r <= P.lastProcessedId s ->
    (forall s', run s s' ->
                ~ In (P.id r) (map change_id (sent_during s s'))) /\
    (batch_of s <> [] ->
     P.next_outcome (tl (P.db_outcomes s)) = true ->
     In (P.set_processed r) (P.db (P.cycle s))).
Proof.
  intros s r Hin Hle. split.
  - intros s' Hrun. now apply behind_cursor_not_sent.
  - intros Hbatch Hupd.
    pose proof (cycle_effect s) as H. cbv zeta in H. destruct H as [_ [_ H]].
    unfold batch_of in Hbatch.
    destruct (P.next_outcome (P.db_outcomes s)); [| contradiction].
    destruct (P.select_unprocessed _ _) as [| c0 rest] eqn:E;
      [contradiction |].
    destruct H as [Hcur [_ [_ Hdb]]]. rewrite Hupd in Hdb. rewrite Hdb.
    apply mark_processed_In; [exact Hin |].
    rewrite <- Hcur. destruct (cycle_cursor_bounds s) as [Hmono _]. lia.
Qed.

(** A row that sits behind the cursor at start-up. *)
Definition stale_state : P.State :=
  idle [user_insert; P.set_processed activity_insert; user_delete] 2.

Lemma row_behind_cursor_never_sent_witness :
  In (P.set_processed user_insert) (P.db (P.cycle stale_state)) /\
  ~ In 1 (map change_id (sent_during stale_state (P.cycle stale_state))).
Proof.
  assert (Hin : In user_insert (P.db stale_state)) by (left; reflexivity).
  assert (Hle : P.id user_insert <= P.lastProcessedId stale_state)
    by (vm_compute; discriminate).
  destruct (row_behind_cursor_never_sent stale_state user_insert Hin Hle)
    as [Hnever Hmark].
  split.
  - apply Hmark; [vm_compute; discriminate | vm_compute; reflexivity].
  - apply (Hnever (P.cycle stale_state)). apply run_poll, run_done.
Defined.

(** X6. When the closing UPDATE of a cycle fails, the table is left as it
    was: each row of the batch is still there with [processed = false].
    The cursor has moved past it all the same, so along any further run
    of the service the row is never sent again. *)
Theorem update_failure_strands_batch :
  forall (s : P.State) (c : P.Change),
    In c (batch_of s) ->
    P.next_outcome (tl (P.db_outcomes s)) = false ->
    P.db (P.cycle s) = P.db s /\
    In c (P.db (P.cycle s)) /\
    P.processed c = false /\
    P.id c <= P.lastProcessedId (P.cycle s) /\
    (forall s', run (P.cycle s) s' ->
                ~ In (P.id c) (map change_id (sent_during (P.cycle s) s'))).
Proof.
  intros s c Hc Hupd.
  destruct (batch_of_In s c Hc) as [Hin [_ Hp]].
  destruct (cycle_cursor_bounds s) as [_ Hb]. specialize (Hb c Hc).
  assert (Hdb : P.db (P.cycle s) = P.db s).
  { pose proof (cycle_effect s) as H. cbv zeta in H. destruct H as [_ [_ H]].
    destruct (P.next_outcome (P.db_outcomes s)); [| apply H].
    destruct (P.select_unprocessed _ _) as [| c0 rest]; [apply H |].
    destruct H as [_ [_ [_ ->]]]. now rewrite Hupd. }
  split; [exact Hdb |]. split; [now rewrite Hdb |].
  split; [exact Hp |]. split; [lia |].
  intros s' Hrun. apply behind_cursor_not_sent; [exact Hrun | lia].
Qed.

(** The store answers the read and refuses the UPDATE. *)
Definition update_refused : P.State :=
  {| P.db := [user_insert];
     P.lastProcessedId := 0;
     P.changesProcessed := 0;
     P.sends := [];
     P.send_outcomes := [];
     P.db_outcomes := [true; false];
     P.out := [];
     P.now := 1005 |}.

Lemma update_failure_strands_batch_witness :
  P.db (P.cycle update_refused) = [user_insert] /\
  P.id user_insert <= P.lastProcessedId (P.cycle update_refused).
Proof.
  assert (Hc : In user_insert (batch_of update_refused))
    by (vm_compute; left; reflexivity).
  assert (Hupd : P.next_outcome (tl (P.db_outcomes update_refused)) = false)
    by reflexivity.
  destruct (update_failure_strands_batch update_refused user_insert Hc Hupd)
    as [Hdb [_ [_ [Hle _]]]].
  split; [exact Hdb | exact Hle].
Defined.

(** ** Batches and backlog *)

Lemma batch_sends_length (changes : list P.Change) (t : Z) :
  forall outcomes,
    (length changes <= length (batch_sends changes t outcomes)
     <= 2 * length changes)%nat.
Proof.
  induction changes as [| c rest IH]; intros outcomes; [simpl; lia |].
  cbn [batch_sends]. rewrite length_app. cbn [length].
  specialize (IH (outcomes_after c outcomes)).
  unfold sends_of. destruct (P.isCriticalChange c); simpl; lia.
Qed.

Lemma cycle_counter (s : P.State) :
  P.changesProcessed (P.cycle s)
  = P.changesProcessed s + Z.of_nat (length (batch_of s)).
Proof.
  pose proof (cycle_effect s) as H. cbv zeta in H. destruct H as [_ [_ H]].
  unfold batch_of. destruct (P.next_outcome (P.db_outcomes s)).
  - destruct (P.select_unprocessed _ _) as [| c0 rest].
    + destruct H as [_ [_ [-> _]]]. simpl. lia.
    + now destruct H as [_ [-> _]].
  - destruct H as [_ [_ [-> _]]]. simpl. lia.
Qed.

(** X7. A cycle handles at most 100 rows, however long the backlog: the
    counter [changesProcessed] grows by the size of the batch, which
    is at most 100, and the cycle makes at least one [send] per row
    and at most two, so at most 200. *)
Theorem cycle_is_bounded :
  forall s : P.State,
    (length (batch_of s) <= 100)%nat /\
    P.changesProcessed (P.cycle s)
    = P.changesProcessed s + Z.of_nat (length (batch_of s)) /\
    (length (batch_of s) <= length (sent_during s (P.cycle s))
     <= 2 * length (batch_of s))%nat /\
    (length (sent_during s (P.cycle s)) <= 200)%nat.
Proof.
  intros s.
  assert (Hb : (length (batch_of s) <= 100)%nat).
  { unfold batch_of. destruct (P.next_outcome (P.db_outcomes s));
      [| simpl; lia].
    unfold P.select_unprocessed. rewrite length_firstn. lia. }
  pose proof (batch_sends_length (batch_of s) (P.now s) (P.send_outcomes s))
    as Hl.
  rewrite sent_during_cycle.
  repeat split; try lia. apply cycle_counter.
Qed.

Lemma filter_none {A : Type} (p : A -> bool) (l : list A) :
  (forall x, In x l -> p x = false) -> filter p l = [].
Proof.
  induction l as [| a l IH]; intros H; [reflexivity |]. simpl.
  rewrite (H a (or_introl eq_refl)). apply IH. intros x Hx. apply H. now right.
Qed.

(** The rows a read would return without its LIMIT. *)
Definition backlog (s : P.State) : list P.Change :=
  filter (fun c => (P.lastProcessedId s <? P.id c) && negb (P.processed c))
         (P.db s).

(** X8. A backlog of at most 100 rows is cleared by one cycle: when the
    store answers the read and the UPDATE, the next read finds nothing,
    whatever the broker answered to the sends. *)
Theorem small_backlog_cleared :
  forall s : P.State,
    (length (backlog s) <= 100)%nat ->
    P.next_outcome (P.db_outcomes s) = true ->
    P.next_outcome (tl (P.db_outcomes s)) = true ->
    backlog (P.cycle s) = [] /\
    P.select_unprocessed (P.lastProcessedId (P.cycle s)) (P.db (P.cycle s))
    = [].
Proof.
  intros s Hlen Hread Hupd.
  assert (Hempty : backlog (P.cycle s) = []).
  { unfold backlog. apply filter_none. intros r' Hr'.
    destruct (cycle_cursor_bounds s) as [Hmono Hb].
    pose proof (cycle_effect s) as H. cbv zeta in H. destruct H as [_ [_ H]].
    assert (Hbatch : forall r, In r (backlog s) -> In r (batch_of s)).
    { intros r Hr. unfold batch_of, P.select_unprocessed. rewrite Hread.
      rewrite firstn_all2.
      - apply order_by_id_In. exact Hr.
      - rewrite (Permutation_length (order_by_id_perm _)). exact Hlen. }
    rewrite Hread in H.
    destruct (P.select_unprocessed _ _) as [| c0 rest] eqn:E.
    - destruct H as [Hdb [Hcur _]]. rewrite Hdb in Hr'. rewrite Hcur.
      destruct ((P.lastProcessedId s <? P.id r') && negb (P.processed r'))
        eqn:Ep; [| reflexivity].
      assert (Hin : In r' (backlog s))
        by (unfold backlog; apply filter_In; auto).
      apply Hbatch in Hin. unfold batch_of in Hin.
      rewrite Hread, E in Hin. contradiction.
    - destruct H as [Hcur [_ [_ Hdb]]]. rewrite Hupd in Hdb.
      rewrite Hdb, <- Hcur in Hr'. unfold P.mark_processed in Hr'.
      apply in_map_iff in Hr'. destruct Hr' as [r [Hr Hin]].
      destruct (Z.leb_spec (P.id r) (P.lastProcessedId (P.cycle s)))
        as [Hle | Hgt].
      + subst r'. simpl. apply andb_false_r.
      + subst r'.
        destruct (negb (P.processed r)) eqn:Ep; [| apply andb_false_r].
        assert (Hbl : In r (backlog s)).
        { unfold backlog. apply filter_In. split; [exact Hin |].
          rewrite Ep, andb_true_r. apply Z.ltb_lt. lia. }
        apply Hbatch, Hb in Hbl. lia. }
  split; [exact Hempty |].
  unfold P.select_unprocessed. fold (backlog (P.cycle s)). now rewrite Hempty.
Qed.

Lemma small_backlog_cleared_witness :
  backlog (P.cycle (with_broker [false; true]
                      (idle [user_insert; activity_insert] 0))) = [].
Proof.
  apply (small_backlog_cleared
           (with_broker [false; true] (idle [user_insert; activity_insert] 0)));
    [vm_compute; lia | reflexivity | reflexivity].
Defined.

(** ** The table along a run *)

Lemma cycle_raises_flags (s : P.State) :
  Forall2 flag_raised (P.db s) (P.db (P.cycle s)).
Proof.
  pose proof (cycle_effect s) as H. cbv zeta in H. destruct H as [_ [_ H]].
  destruct (P.next_outcome (P.db_outcomes s)).
  - destruct (P.select_unprocessed _ _) as [| c0 rest].
    + destruct H as [-> _]. apply flag_raised_refl.
    + destruct H as [_ [_ [_ ->]]].
      destruct (P.next_outcome (tl (P.db_outcomes s)));
        [apply mark_processed_raises | apply flag_raised_refl].
  - destruct H as [-> _]. apply flag_raised_refl.
Qed.

Lemma flag_raised_trans (a b c : P.Change) :
  flag_raised a b -> flag_raised b c -> flag_raised a c.
Proof.
  intros [-> | [Ha ->]] [-> | [Hb ->]]; unfold flag_raised; auto.
Qed.

Lemma flags_raised_trans (l1 l2 : list P.Change) :
  Forall2 flag_raised l1 l2 ->
  forall l3, Forall2 flag_raised l2 l3 -> Forall2 flag_raised l1 l3.
Proof.
  induction 1 as [| a b l1 l2 Hab _ IH]; intros l3 H23; inversion H23; subst;
    constructor; eauto using flag_raised_trans.
Qed.

(** X9. Along any run the service never removes, reorders or rewrites a
    row of the change log: the table at the end is the table at the
    start, row by row, each row either untouched or with only its
    [processed] flag raised, followed by the rows captured meanwhile. In
    particular a processed row stays in the table as it is. *)
Theorem table_only_gains :
  forall s s' : P.State,
    run s s' ->
    (exists kept added,
       P.db s' = (kept ++ added)%list /\
       Forall2 flag_raised (P.db s) kept) /\
    (forall r, In r (P.db s) -> P.processed r = true -> In r (P.db s')).
Proof.
  intros s s' Hrun.
  assert (H : exists kept added,
             P.db s' = (kept ++ added)%list /\
             Forall2 flag_raised (P.db s) kept).
  { induction Hrun as [s | s s' _ IH | s s' r _ _ IH].
    - exists (P.db s), []. split; [now rewrite app_nil_r |].
      apply flag_raised_refl.
    - destruct IH as [kept [added [Hdb Hk]]].
      exists kept, added. split; [exact Hdb |].
      eapply flags_raised_trans; [apply cycle_raises_flags | exact Hk].
    - destruct IH as [kept [added [Hdb Hk]]].
      unfold capture in Hk. cbn [P.db P.with_db] in Hk.
      apply Forall2_app_inv_l in Hk.
      destruct Hk as [k1 [k2 [Hk1 [Hk2 ->]]]].
      exists k1, (k2 ++ added)%list. split; [| exact Hk1].
      now rewrite Hdb, app_assoc. }
  split; [exact H |].
  destruct H as [kept [added [-> Hk]]].
  intros r Hin Hp. apply in_or_app. left.
  clear -Hk Hin Hp. induction Hk as [| a b l1 l2 Hab _ IH]; [contradiction |].
  destruct Hin as [-> | Hin]; [| right; auto].
  left. destruct Hab as [-> | [Hf _]]; congruence.
Qed.

Lemma table_only_gains_witness :
  In (P.set_processed activity_insert)
     (P.db (P.cycle stale_state)).
Proof.
  assert (Hrun : run stale_state (P.cycle stale_state))
    by apply run_poll, run_done.
  destruct (table_only_gains _ _ Hrun) as [_ Hkeep].
  apply Hkeep; [right; left; reflexivity | reflexivity].
Defined.

(* ================================================================== *)
(** * What a cycle writes *)
(* ================================================================== *)

(** The lines one [processChange] writes, given the broker's answers. *)
Definition outputs_of (c : P.Change) (t : Z) (outcomes : list bool)
  : list P.Output :=
  ([P.ConsoleEntry (P.changeLogEntry c t);
    P.LogDatabaseChange (P.operation_type c) (P.table_name c)
                        (P.record_id c);
    if P.next_outcome outcomes
    then P.LogKafkaEvent "CHANGE_SENT" "database-events" (P.table_name c)
    else P.LogSystemEvent "CDC_KAFKA_SEND_ERROR" "error"]
   ++ (if P.isCriticalChange c
       then P.ConsoleEntry (P.criticalLogEntry c (P.changeLogEntry c t))
            :: (if P.next_outcome (tl outcomes)
                then []
                else [P.LogSystemEvent "CDC_CHANGE_PROCESSING_ERROR" "error"])
       else []))%list.

Fixpoint batch_outputs (changes : list P.Change) (t : Z)
  (outcomes : list bool) : list P.Output :=
  match changes with
  | [] => []
  | c :: rest =>
      (outputs_of c t outcomes
       ++ batch_outputs rest t (outcomes_after c outcomes))%list
  end.

Lemma processChange_out (c : P.Change) (s : P.State) :
  P.out (snd (P.processChange c s))
  = (P.out s ++ outputs_of c (P.now s) (P.send_outcomes s))%list.
Proof.
  unfold outputs_of. run_publisher.
  destruct (P.next_outcome (P.send_outcomes s));
    cbn [fst snd P.now P.sends P.send_outcomes P.db P.lastProcessedId
         P.changesProcessed P.db_outcomes P.out P.with_out P.with_send];
    destruct (P.isCriticalChange c);
    cbn [fst snd P.now P.sends P.send_outcomes P.db P.lastProcessedId
         P.changesProcessed P.db_outcomes P.out P.with_out P.with_send];
    try destruct (P.next_outcome (tl (P.send_outcomes s)));
    cbn [fst snd P.now P.sends P.send_outcomes P.db P.lastProcessedId
         P.changesProcessed P.db_outcomes P.out P.with_out P.with_send
         P.table P.changeLogEntry];
    rewrite <- ?app_assoc; reflexivity.
Qed.

Lemma poll_step_out (c : P.Change) (s : P.State) :
  P.out (snd (P.poll_step c s))
  = (P.out s ++ outputs_of c (P.now s) (P.send_outcomes s))%list.
Proof.
  pose proof (processChange_out c s) as H.
  unfold P.poll_step, Eff.bind, Eff.modify.
  destruct (processChange_effect c s) as [Hok _].
  destruct (P.processChange c s) as [r s1]. simpl in Hok, H. subst r.
  exact H.
Qed.

Lemma loop_out (changes : list P.Change) :
  forall s : P.State,
    P.out (snd (Eff.for_of changes P.poll_step s))
    = (P.out s ++ batch_outputs changes (P.now s) (P.send_outcomes s))%list.
Proof.
  induction changes as [| c rest IH]; intros s.
  - simpl. now rewrite app_nil_r.
  - pose proof (poll_step_effect c s) as H.
    pose proof (poll_step_out c s) as Hout.
    cbn [Eff.for_of]. unfold Eff.bind.
    destruct (P.poll_step c s) as [r s1]. simpl in H, Hout.
    destruct H as [-> [_ [Ho [_ [_ [_ [_ Hn]]]]]]].
    rewrite IH, Hout, Hn, Ho. cbn [batch_outputs]. now rewrite app_assoc.
Qed.

(** The lines one cycle writes. *)
Definition cycle_outputs (s : P.State) : list P.Output :=
  if P.next_outcome (P.db_outcomes s) then
    match P.select_unprocessed (P.lastProcessedId s) (P.db s) with
    | [] => []
    | c0 :: rest =>
        (P.ConsoleProcessing (length (c0 :: rest))
         :: batch_outputs (c0 :: rest) (P.now s) (P.send_outcomes s)
         ++ (if P.next_outcome (tl (P.db_outcomes s))
             then []
             else [P.LogSystemEvent "CDC_POLL_ERROR" "error"]))%list
    end
  else [P.LogSystemEvent "CDC_POLL_ERROR" "error"].

Lemma cycle_out (s : P.State) :
  P.out (P.cycle s) = (P.out s ++ cycle_outputs s)%list.
Proof.
  unfold P.cycle, cycle_outputs.
  destruct (P.pollForChanges s) as [r s'] eqn:E. cbn [fst snd].
  unfold P.pollForChanges, Eff.try_catch, Eff.bind at 1 2, Eff.gets,
    P.db_select in E.
  destruct (P.next_outcome (P.db_outcomes s)) eqn:Eread.
  2: { cbn in E. injection E as <- <-. reflexivity. }
  cbn [P.db P.lastProcessedId P.with_db_call] in E.
  destruct (P.select_unprocessed (P.lastProcessedId s) (P.db s))
    as [| c0 rest] eqn:Ebatch.
  - cbn in E. injection E as <- <-. cbn. now rewrite app_nil_r.
  - cbn [length Nat.eqb] in E.
    unfold Eff.bind at 1, P.console_log at 1, Eff.modify at 1 in E.
    unfold Eff.bind at 1 in E.
    set (s1 := P.with_out _ (P.with_db_call s)) in E.
    pose proof (loop_effect (c0 :: rest) s1) as H. cbv zeta in H.
    pose proof (loop_out (c0 :: rest) s1) as Hout.
    destruct (Eff.for_of (c0 :: rest) P.poll_step s1) as [r2 s2].
    cbn [fst snd] in H, Hout.
    destruct H as [-> [_ [_ [_ [_ [_ [Hdo _]]]]]]].
    cbn [map] in E. unfold P.db_update in E.
    rewrite Hdo in E. subst s1.
    cbn [P.sends P.send_outcomes P.now P.db P.changesProcessed
         P.lastProcessedId P.db_outcomes P.out P.with_out P.with_db_call]
      in Hout, E.
    destruct (P.next_outcome (tl (P.db_outcomes s)));
      injection E as <- <-; cbn [P.out P.with_db P.with_db_call P.with_out
                                  P.logSystemEvent P.console_log Eff.modify snd];
      rewrite Hout, <- ?app_assoc; cbn [app length];
      rewrite ?app_nil_r; reflexivity.
Qed.

(** X10. A cycle that has nothing to read leaves the table, the cursor,
    the counter and the broker untouched, and writes nothing; when the
    read itself fails, all it writes is the error CDC_POLL_ERROR. *)
Theorem idle_cycle_changes_nothing :
  forall s : P.State,
    batch_of s = [] ->
    P.db (P.cycle s) = P.db s /\
    P.lastProcessedId (P.cycle s) = P.lastProcessedId s /\
    P.changesProcessed (P.cycle s) = P.changesProcessed s /\
    P.sends (P.cycle s) = P.sends s /\
    P.out (P.cycle s)
    = (P.out s
       ++ (if P.next_outcome (P.db_outcomes s)
           then []
           else [P.LogSystemEvent "CDC_POLL_ERROR" "error"]))%list.
Proof.
  intros s Hb.
  pose proof (cycle_effect s) as H. cbv zeta in H. destruct H as [_ [_ H]].
  rewrite cycle_out. unfold cycle_outputs. unfold batch_of in Hb.
  destruct (P.next_outcome (P.db_outcomes s)).
  - rewrite Hb in H |- *. tauto.
  - tauto.
Qed.

Lemma idle_cycle_changes_nothing_witness :
  P.out (P.cycle (idle [P.set_processed user_insert] 0)) = [].
Proof.
  destruct (idle_cycle_changes_nothing
              (idle [P.set_processed user_insert] 0) eq_refl)
    as [_ [_ [_ [_ Hout]]]].
  exact Hout.
Defined.

(** ** Failures and their log lines *)

(** The number of error events named [name] among some lines. *)
Definition count_errors (name : string) (l : list P.Output) : nat :=
  length
    (filter (fun o => match o with
                      | P.LogSystemEvent event level =>
                          String.eqb event name && String.eqb level "error"
                      | _ => false
                      end) l).

(** The number of refused [send] calls on a topic. *)
Definition failed_sends (topic : string) (l : list (P.KafkaMessage * bool))
  : nat :=
  length
    (filter (fun x => String.eqb (P.topic (fst x)) topic && negb (snd x)) l).

(** The number of store calls of a cycle that fail: the read, or the
    closing UPDATE of a batch. *)
Definition failed_store_calls (s : P.State) : nat :=
  if P.next_outcome (P.db_outcomes s) then
    match P.select_unprocessed (P.lastProcessedId s) (P.db s) with
    | [] => 0
    | _ :: _ => if P.next_outcome (tl (P.db_outcomes s)) then 0 else 1
    end
  else 1.

Lemma count_errors_app (name : string) (l1 l2 : list P.Output) :
  count_errors name (l1 ++ l2)
  = (count_errors name l1 + count_errors name l2)%nat.
Proof. unfold count_errors. now rewrite filter_app, length_app. Qed.

Lemma failed_sends_app (topic : string) (l1 l2 : list (P.KafkaMessage * bool)) :
  failed_sends topic (l1 ++ l2)
  = (failed_sends topic l1 + failed_sends topic l2)%nat.
Proof. unfold failed_sends. now rewrite filter_app, length_app. Qed.

Lemma change_errors (c : P.Change) (t : Z) (outcomes : list bool) :
  count_errors "CDC_KAFKA_SEND_ERROR" (outputs_of c t outcomes)
  = failed_sends "database-events" (sends_of c t outcomes) /\
  count_errors "CDC_CHANGE_PROCESSING_ERROR" (outputs_of c t outcomes)
  = failed_sends "critical-database-events" (sends_of c t outcomes) /\
  count_errors "CDC_POLL_ERROR" (outputs_of c t outcomes) = 0%nat.
Proof.
  unfold outputs_of, sends_of.
  destruct (P.next_outcome outcomes), (P.isCriticalChange c);
    try destruct (P.next_outcome (tl outcomes)); repeat split.
Qed.

Lemma batch_errors (changes : list P.Change) (t : Z) :
  forall outcomes,
    count_errors "CDC_KAFKA_SEND_ERROR" (batch_outputs changes t outcomes)
    = failed_sends "database-events" (batch_sends changes t outcomes) /\
    count_errors "CDC_CHANGE_PROCESSING_ERROR"
                 (batch_outputs changes t outcomes)
    = failed_sends "critical-database-events"
                   (batch_sends changes t outcomes) /\
    count_errors "CDC_POLL_ERROR" (batch_outputs changes t outcomes) = 0%nat.
Proof.
  induction changes as [| c rest IH]; intros outcomes; [repeat split |].
  cbn [batch_outputs batch_sends].
  rewrite !count_errors_app, !failed_sends_app.
  destruct (change_errors c t outcomes) as [-> [-> ->]].
  destruct (IH (outcomes_after c outcomes)) as [-> [-> ->]].
  repeat split.
Qed.

(** X11. No failure of a cycle is silent and no error line is spurious:
    among the lines a cycle writes there is one CDC_KAFKA_SEND_ERROR for
    each refused send on the primary topic, one
    CDC_CHANGE_PROCESSING_ERROR for each refused send on the
    high-priority topic, and one CDC_POLL_ERROR exactly when the read or
    the closing UPDATE fails. *)
Theorem every_failure_logged_once :
  forall s : P.State,
    let written := skipn (length (P.out s)) (P.out (P.cycle s)) in
    let sent := sent_during s (P.cycle s) in
    count_errors "CDC_KAFKA_SEND_ERROR" written
    = failed_sends "database-events" sent /\
    count_errors "CDC_CHANGE_PROCESSING_ERROR" written
    = failed_sends "critical-database-events" sent /\
    count_errors "CDC_POLL_ERROR" written = failed_store_calls s.
Proof.
  intros s written sent. subst written sent.
  rewrite cycle_out, skipn_app, skipn_all, Nat.sub_diag. cbn [skipn app].
  rewrite sent_during_cycle.
  unfold cycle_outputs, batch_of, failed_store_calls.
  destruct (P.next_outcome (P.db_outcomes s)); [| repeat split].
  destruct (P.select_unprocessed _ _) as [| c0 rest]; [repeat split |].
  destruct (batch_errors (c0 :: rest) (P.now s) (P.send_outcomes s))
    as [H1 [H2 H3]].
  change (P.ConsoleProcessing (length (c0 :: rest))
          :: batch_outputs (c0 :: rest) (P.now s) (P.send_outcomes s)
             ++ (if P.next_outcome (tl (P.db_outcomes s)) then []
                 else [P.LogSystemEvent "CDC_POLL_ERROR" "error"]))%list
    with ([P.ConsoleProcessing (length (c0 :: rest))]
          ++ batch_outputs (c0 :: rest) (P.now s) (P.send_outcomes s)
          ++ (if P.next_outcome (tl (P.db_outcomes s)) then []
              else [P.LogSystemEvent "CDC_POLL_ERROR" "error"]))%list.
  rewrite !count_errors_app, H1, H2, H3.
  destruct (P.next_outcome (tl (P.db_outcomes s))); repeat split;
    cbn; lia.
Qed.

Example failures_of_a_cycle :
  let s := {| P.db := [user_delete; user_insert];
              P.lastProcessedId := 0;
              P.changesProcessed := 0;
              P.sends := [];
              P.send_outcomes := [true; false; false];
              P.db_outcomes := [true; false];
              P.out := [];
              P.now := 1005 |} in
  map (fun x => (P.topic (fst x), change_id x, snd x))
      (sent_during s (P.cycle s))
  = [("database-events", 1, true);
     ("database-events", 8, false);
     ("critical-database-events", 8, false)] /\
  filter (fun o => match o with P.LogSystemEvent _ _ => true | _ => false end)
         (P.out (P.cycle s))
  = [P.LogSystemEvent "CDC_KAFKA_SEND_ERROR" "error";
     P.LogSystemEvent "CDC_CHANGE_PROCESSING_ERROR" "error";
     P.LogSystemEvent "CDC_POLL_ERROR" "error"].
Proof. split; vm_compute; reflexivity. Qed.

(* ================================================================== *)
(** * The Change Recorder and the start-up cursor *)
(* ================================================================== *)


Example trigger_password_update :
  let row := {| P.row_id := 42; P.row_user_id := None |} in
  let c := P.update_trigger "users" row row 7 1000 1 2 in
  P.record_id c = Some "42" /\
  P.user_id c = Some 42 /\
  P.isCriticalChange c = false /\
  map (fun x => P.topic (fst x)) (new_sends c (idle [] 0))
  = ["database-events"].
Proof. repeat split; vm_compute; reflexivity. Qed.

Lemma max_processed_id_spec (rows : list P.Change) :
  match P.max_processed_id rows with
  | None => forall r, In r rows -> P.processed r = false
  | Some m =>
      (forall r, In r rows -> P.processed r = true -> P.id r <= m) /\
      exists r, In r rows /\ P.processed r = true /\ P.id r = m
  end.
Proof.
  unfold P.max_processed_id, P.Math_max.
  destruct (map P.id (filter P.processed rows)) as [| first others] eqn:E.
  - intros r Hr. destruct (P.processed r) eqn:Ep; [| reflexivity].
    assert (Hin : In (P.id r) (map P.id (filter P.processed rows)))
      by (apply in_map, filter_In; auto).
    rewrite E in Hin. contradiction.
  - destruct (fold_max_ge others first) as [H1 H2]. split.
    + intros r Hr Hp.
      assert (Hin : In (P.id r) (map P.id (filter P.processed rows)))
        by (apply in_map, filter_In; auto).
      rewrite E in Hin. destruct Hin as [<- | Hin]; auto.
    + assert (Hin : In (fold_left Z.max others first)
                       (map P.id (filter P.processed rows))).
      { rewrite E. destruct (fold_max_In others first) as [-> | Hm];
          [now left | now right]. }
      apply in_map_iff in Hin. destruct Hin as [r [Hid Hr]].
      apply filter_In in Hr. exists r. tauto.
Qed.

(** X13. [initializeLastProcessedIds] never throws and touches neither
    the table nor the broker. When its query fails the cursor is 0.
    When it succeeds no processed row lies above the cursor, and the
    cursor is 0 or the id of a processed row; the cursor the service
    had before plays no part. *)
Theorem initialize_cursor :
  forall s : P.State,
    let s' := snd (P.initializeLastProcessedIds s) in
    fst (P.initializeLastProcessedIds s) = JS.Ok tt /\
    P.db s' = P.db s /\
    P.sends s' = P.sends s /\
    (P.next_outcome (P.db_outcomes s) = false -> P.lastProcessedId s' = 0) /\
    (P.next_outcome (P.db_outcomes s) = true ->
     (forall r, In r (P.db s) -> P.processed r = true ->
                P.id r <= P.lastProcessedId s') /\
     (P.lastProcessedId s' = 0 \/
      exists r, In r (P.db s) /\ P.processed r = true /\
                P.id r = P.lastProcessedId s')).
Proof.
  intros s s'. subst s'.
  unfold P.initializeLastProcessedIds, Eff.try_catch, Eff.bind,
    P.db_max_processed, Eff.modify, P.logSystemEvent, P.console_log.
  pose proof (max_processed_id_spec (P.db s)) as Hmax.
  destruct (P.next_outcome (P.db_outcomes s)); cbn.
  - split; [reflexivity |]. split; [reflexivity |]. split; [reflexivity |].
    split; [discriminate |]. intros _.
    destruct (P.max_processed_id (P.db s)) as [m |]; cbn.
    + destruct Hmax as [Hle Hex]. split.
      * intros r Hr Hp. specialize (Hle r Hr Hp).
        destruct (Z.eqb_spec m 0); lia.
      * destruct (Z.eqb_spec m 0); [now left | now right].
    + split; [| now left].
      intros r Hr Hp. specialize (Hmax r Hr). congruence.
  - split; [reflexivity |]. split; [reflexivity |]. split; [reflexivity |].
    split; [reflexivity | discriminate].
Qed.

(** After a restart the cursor stands on the highest processed id: the
    unprocessed row 1 below it is out of reach of every read. *)
Example restart_skips_row :
  let s := snd (P.initializeLastProcessedIds
                  (idle [user_insert; P.set_processed activity_insert;
                         user_delete] 0)) in
  P.lastProcessedId s = 2 /\
  map P.id (P.select_unprocessed (P.lastProcessedId s) (P.db s)) = [8].
Proof. split; vm_compute; reflexivity. Qed.

(* ================================================================== *)
(** * More on the consumer *)
(* ================================================================== *)

(** ** From the producer's envelope to the consumer's lines *)

(** The lines [processDatabaseEvent] writes for a change row: the
    processing line and, for a critical row, the alert. *)
Definition database_lines (c : P.Change) (changeType : string)
  : list K.Output :=
  let logEntry :=
    [("operation", JS.VStr (P.operation_type c));
     ("table", JS.VStr (P.table_name c));
     ("recordId", JS.of_opt_string (P.record_id c));
     ("userId", JS.of_opt_num (P.user_id c));
     ("changeType", JS.VStr changeType)] in
  K.Console "DATABASE_CHANGE_PROCESSING" logEntry
  :: (if P.isCriticalChange c
      then [K.Console "CRITICAL_DATABASE_CHANGE"
              (logEntry ++ [("alertLevel", JS.VStr "HIGH");
                            ("requiresAttention", JS.VBool true)])%list]
      else []).

(** X14. Fed the envelope the producer published for a change row,
    [processDatabaseEvent] writes the processing line with the row's
    operation, table, record id and actor and the category of its
    table, and then the HIGH alert exactly when the producer's own
    [isCriticalChange] holds for the row; it logs no error. *)
Theorem consumer_alerts_on_escalated_rows :
  forall (c : P.Change) (ref : nat) (t : Z) (message : K.Message)
         (s : K.State),
    exists changeType,
      K.classifyChange (received ref (P.changeLogEntry c t))
      = JS.Ok changeType /\
      K.processDatabaseEvent (received ref (P.changeLogEntry c t)) message s
      = (JS.Ok tt,
         {| K.processedMessages := K.processedMessages s;
            K.out := (K.out s ++ database_lines c changeType)%list |}).
Proof.
  intros c ref t message s.
  pose proof (consumer_isCritical_expr c ref t) as Hcrit.
  rewrite <- producer_isCritical_expr in Hcrit.
  assert (Hcls : exists changeType,
             K.classifyChange (received ref (P.changeLogEntry c t))
             = JS.Ok changeType).
  { unfold K.classifyChange. cbn.
    destruct (String.eqb (P.table_name c) "users"); [eauto |].
    destruct (String.eqb (P.table_name c) "user_tokens"); eauto. }
  destruct Hcls as [changeType Hcls]. exists changeType.
  split; [exact Hcls |].
  unfold K.processDatabaseEvent, Eff.try_catch, Eff.bind, Eff.lift.
  rewrite Hcls, Hcrit. unfold database_lines.
  destruct (P.isCriticalChange c); cbn; rewrite <- ?app_assoc; reflexivity.
Qed.

(** X15. The primary topic of the producer is one the consumer
    subscribes to; the high-priority topic is not: no handler of this
    consumer ever sees an escalated envelope, and a message of that
    topic handed to [processMessage] only draws the unknown-topic
    warning. *)
Theorem escalated_topic_has_no_consumer :
  forall (c : P.Change) (t : Z),
    In (P.topic (primary_message c t)) K.subscribed_topics /\
    ~ In (P.topic (escalated_message c t)) K.subscribed_topics /\
    (forall (JSON_parse : string -> option JS.value) (partition : Z)
            (message : K.Message) (s : K.State),
       parses JSON_parse message ->
       exists completion,
         K.out (snd (K.processMessage JSON_parse
                       (P.topic (escalated_message c t)) partition message s))
         = (K.out s
            ++ [K.LogKafkaEvent "MESSAGE_RECEIVED" "critical-database-events"
                  partition (K.offset message) (K.key message);
                K.LogSystemEvent "UNKNOWN_TOPIC_MESSAGE" "warn";
                K.Console "REALTIME_DATA_PROCESSING" completion])%list).
Proof.
  intros c t. split; [right; left; reflexivity |]. split.
  - simpl. intuition discriminate.
  - intros JSON_parse partition message s Hparse. eexists.
    unfold K.processMessage, Eff.try_catch, Eff.bind at 1, K.parse_value.
    destruct Hparse as [-> | [text [v [-> ->]]]]; cbn;
      rewrite <- !app_assoc; reflexivity.
Qed.

Lemma escalated_topic_has_no_consumer_witness :
  exists completion,
    K.out (snd (K.processMessage parse_null_only
                  (P.topic (escalated_message user_delete 1005)) 0
                  {| K.key := None; K.value_ := Some "null";
                     K.offset := "3"; K.timestamp := "1005" |}
                  {| K.processedMessages := 0; K.out := [] |}))
    = ([]
       ++ [K.LogKafkaEvent "MESSAGE_RECEIVED" "critical-database-events"
             0 "3" None;
           K.LogSystemEvent "UNKNOWN_TOPIC_MESSAGE" "warn";
           K.Console "REALTIME_DATA_PROCESSING" completion])%list.
Proof.
  destruct (escalated_topic_has_no_consumer user_delete 1005) as [_ [_ H]].
  apply (H parse_null_only 0
           {| K.key := None; K.value_ := Some "null";
              K.offset := "3"; K.timestamp := "1005" |}
           {| K.processedMessages := 0; K.out := [] |}).
  right. exists "null", JS.VNull. split; reflexivity.
Defined.

(** ** Login events *)

(** The origin address of a user event: [eventData.data?.ipAddress]. *)
Definition origin_address (fs : list (string * JS.value)) : JS.value :=
  JS.opt_get (JS.lookup "data" fs) "ipAddress".

(** The event line of [processUserEvent] for an event object. *)
Definition user_event_entry (fs : list (string * JS.value))
  : list (string * JS.value) :=
  let data := JS.lookup "data" fs in
  [("eventType", JS.lookup "type" fs);
   ("userId", JS.opt_get data "userId");
   ("email", JS.opt_get data "email");
   ("action", JS.or_else (JS.opt_get data "action") (JS.lookup "type" fs));
   ("ipAddress", JS.opt_get data "ipAddress");
   ("userAgent", JS.opt_get data "userAgent");
   ("sessionId", JS.opt_get data "sessionId")].

(** X16. For a USER_LOGIN event [processUserEvent] writes the event
    line and then a security line exactly when the event carries a
    truthy origin address; the line's riskLevel is LOW for ['127.0.0.1']
    and MEDIUM for any other address. A login without an address (or
    with an empty one) gets no security line, and none of this logs an
    error. *)
Theorem login_security_line :
  forall (ref : nat) (fs : list (string * JS.value)) (message : K.Message)
         (s : K.State),
    JS.lookup "type" fs = JS.VStr "USER_LOGIN" ->
    K.processUserEvent (JS.VObj ref fs) message s
    = (JS.Ok tt,
       {| K.processedMessages := K.processedMessages s;
          K.out :=
            (K.out s
             ++ K.Console "USER_EVENT_PROCESSING" (user_event_entry fs)
                :: (if JS.truthy (origin_address fs)
                    then [K.Console "SECURITY_MONITORING"
                            (user_event_entry fs
                             ++ [("securityEvent",
                                  JS.VStr "USER_LOGIN_DETECTED");
                                 ("riskLevel",
                                  JS.VStr
                                    (if JS.strict_eq (origin_address fs)
                                          (JS.VStr "127.0.0.1")
                                     then "LOW" else "MEDIUM"))])%list]
                    else []))%list |}).
Proof.
  intros ref fs message s Htype.
  unfold K.processUserEvent, K.processLoginEvent, Eff.try_catch, Eff.bind,
    Eff.lift, origin_address, user_event_entry.
  cbn [JS.get]. rewrite Htype. cbn [JS.strict_eq String.eqb Ascii.eqb Bool.eqb].
  cbn [K.emit Eff.modify K.processedMessages K.out fst snd].
  destruct (JS.lookup "data" fs) as [| | b | n | str | r dfs] eqn:Edata;
    cbn [JS.opt_get JS.truthy]; try reflexivity.
  destruct (JS.truthy (JS.lookup "ipAddress" dfs)) eqn:Etruthy.
  - unfold K.assessLoginRisk. cbn [JS.get JS.rbind].
    destruct (JS.strict_eq (JS.lookup "ipAddress" dfs) (JS.VStr "127.0.0.1"));
      cbn; rewrite <- ?app_assoc; reflexivity.
  - cbn. rewrite <- ?app_assoc. reflexivity.
Qed.

Lemma login_security_line_witness :
  K.out (snd (K.processUserEvent
                (JS.VObj 1 [("type", JS.VStr "USER_LOGIN");
                            ("data", JS.VObj 2
                               [("userId", JS.VNum 42);
                                ("ipAddress", JS.VStr "203.0.113.5")])])
                {| K.key := Some "system"; K.value_ := None;
                   K.offset := "0"; K.timestamp := "1005" |}
                {| K.processedMessages := 1; K.out := [] |}))
  = [K.Console "USER_EVENT_PROCESSING"
       [("eventType", JS.VStr "USER_LOGIN");
        ("userId", JS.VNum 42);
        ("email", JS.VUndefined);
        ("action", JS.VStr "USER_LOGIN");
        ("ipAddress", JS.VStr "203.0.113.5");
        ("userAgent", JS.VUndefined);
        ("sessionId", JS.VUndefined)];
     K.Console "SECURITY_MONITORING"
       [("eventType", JS.VStr "USER_LOGIN");
        ("userId", JS.VNum 42);
        ("email", JS.VUndefined);
        ("action", JS.VStr "USER_LOGIN");
        ("ipAddress", JS.VStr "203.0.113.5");
        ("userAgent", JS.VUndefined);
        ("sessionId", JS.VUndefined);
        ("securityEvent", JS.VStr "USER_LOGIN_DETECTED");
        ("riskLevel", JS.VStr "MEDIUM")]].
Proof.
  rewrite (login_security_line 1
             [("type", JS.VStr "USER_LOGIN");
              ("data", JS.VObj 2 [("userId", JS.VNum 42);
                                  ("ipAddress", JS.VStr "203.0.113.5")])]
             {| K.key := Some "system"; K.value_ := None;
                K.offset := "0"; K.timestamp := "1005" |}
             {| K.processedMessages := 1; K.out := [] |} eq_refl).
  reflexivity.
Defined.

(** ** Handlers and their failures *)

Definition console_line (o : K.Output) : Prop :=
  match o with
  | K.Console _ _ => True
  | _ => False
  end.

(** What a handler does with an event: it returns, leaves the message
    counter alone and appends lines; for a [null] or [undefined] event
    the only line is its error event, for any other event the lines are
    console lines, at least one. *)
Definition handler_outcome (run : JS.result unit * K.State) (s : K.State)
  (eventData : JS.value) (error_event : string) : Prop :=
  fst run = JS.Ok tt /\
  K.processedMessages (snd run) = K.processedMessages s /\
  exists lines,
    K.out (snd run) = (K.out s ++ lines)%list /\
    match eventData with
    | JS.VNull | JS.VUndefined =>
        lines = [K.LogSystemEvent error_event "error"]
    | _ => Forall console_line lines /\ lines <> []
    end.

Ltac handler_done :=
  cbn; repeat split;
  eexists; split;
  [ rewrite <- ?app_assoc; reflexivity
  | first [ reflexivity
          | split; [repeat constructor | discriminate] ] ].

Lemma processSystemLog_outcome (eventData : JS.value) (message : K.Message)
  (s : K.State) :
  handler_outcome (K.processSystemLog eventData message s) s eventData
                  "SYSTEM_LOG_PROCESSING_ERROR".
Proof.
  unfold handler_outcome, K.processSystemLog, Eff.try_catch, Eff.bind,
    Eff.lift, K.logSystemEvent.
  destruct eventData; handler_done.
Qed.

Lemma processDatabaseEvent_outcome (eventData : JS.value)
  (message : K.Message) (s : K.State) :
  handler_outcome (K.processDatabaseEvent eventData message s) s eventData
                  "DATABASE_EVENT_PROCESSING_ERROR".
Proof.
  unfold handler_outcome, K.processDatabaseEvent, Eff.try_catch, Eff.bind,
    Eff.lift, K.logSystemEvent.
  destruct eventData as [| | b | n | str | ref fs]; try handler_done.
  rewrite consumer_isCritical_obj.
  unfold K.classifyChange. cbn [JS.get JS.rbind].
  destruct (JS.strict_eq (JS.lookup "table" fs) (JS.VStr "users"));
    [| destruct (JS.strict_eq (JS.lookup "table" fs) (JS.VStr "user_tokens"))];
    cbn [andb];
    try destruct (JS.strict_eq (JS.lookup "operation" fs) (JS.VStr "DELETE")
                  || _);
    handler_done.
Qed.

Lemma processUserEvent_outcome (eventData : JS.value) (message : K.Message)
  (s : K.State) :
  handler_outcome (K.processUserEvent eventData message s) s eventData
                  "USER_EVENT_PROCESSING_ERROR".
Proof.
  unfold handler_outcome, K.processUserEvent, K.processLoginEvent,
    K.processLogoutEvent, K.processRegistrationEvent, Eff.try_catch,
    Eff.bind, Eff.lift, K.logSystemEvent.
  destruct eventData as [| | b | n | str | ref fs]; try handler_done.
  cbn [JS.get].
  destruct (JS.strict_eq (JS.lookup "type" fs) (JS.VStr "USER_LOGIN")).
  - destruct (JS.lookup "data" fs) as [| | b | n | str | r dfs];
      try handler_done.
    cbn [JS.opt_get].
    destruct (JS.truthy (JS.lookup "ipAddress" dfs)); [| handler_done].
    unfold K.assessLoginRisk. cbn [JS.get JS.rbind].
    destruct (JS.strict_eq (JS.lookup "ipAddress" dfs) (JS.VStr "127.0.0.1"));
      handler_done.
  - destruct (JS.strict_eq (JS.lookup "type" fs) (JS.VStr "USER_LOGOUT"));
      [handler_done |].
    destruct (JS.strict_eq (JS.lookup "type" fs) (JS.VStr "USER_REGISTERED"));
      handler_done.
Qed.

(** X17. Each of the three handlers returns for every event and never
    touches the message counter. It logs its error event exactly for a
    [null] or [undefined] event, and then writes nothing else; for any
    other event, whatever its shape, it writes console lines only. *)
Theorem handlers_fail_only_on_null :
  forall (eventData : JS.value) (message : K.Message) (s : K.State),
    handler_outcome (K.processUserEvent eventData message s) s eventData
                    "USER_EVENT_PROCESSING_ERROR" /\
    handler_outcome (K.processDatabaseEvent eventData message s) s eventData
                    "DATABASE_EVENT_PROCESSING_ERROR" /\
    handler_outcome (K.processSystemLog eventData message s) s eventData
                    "SYSTEM_LOG_PROCESSING_ERROR".
Proof.
  intros eventData message s. split; [| split].
  - apply processUserEvent_outcome.
  - apply processDatabaseEvent_outcome.
  - apply processSystemLog_outcome.
Qed.

(** ** Counting and completion *)

(** The topic switch of [processMessage]. *)
Lemma dispatch_outcome (topic : string) (v : JS.value) (message : K.Message)
  (s : K.State) :
  let run :=
    (if String.eqb topic "user-events"
     then K.processUserEvent v message
     else if String.eqb topic "database-events"
     then K.processDatabaseEvent v message
     else if String.eqb topic "system-logs"
     then K.processSystemLog v message
     else K.logSystemEvent "UNKNOWN_TOPIC_MESSAGE" "warn") s in
  fst run = JS.Ok tt /\
  K.processedMessages (snd run) = K.processedMessages s /\
  exists lines, K.out (snd run) = (K.out s ++ lines)%list.
Proof.
  cbv zeta.
  destruct (String.eqb topic "user-events");
    [destruct (processUserEvent_outcome v message s) as [H1 [H2 [l [H3 _]]]];
     eauto |].
  destruct (String.eqb topic "database-events");
    [destruct (processDatabaseEvent_outcome v message s)
       as [H1 [H2 [l [H3 _]]]]; eauto |].
  destruct (String.eqb topic "system-logs");
    [destruct (processSystemLog_outcome v message s) as [H1 [H2 [l [H3 _]]]];
     eauto |].
  cbn. eauto.
Qed.

(** X18. Every message whose value parses is counted once and reported
    complete, on any topic and whatever its handler did: the counter
    grows by one, the output starts with the reception event and ends
    with the completion line, which carries the new count. *)
Theorem parsed_message_counted_and_completed :
  forall (JSON_parse : string -> option JS.value) (topic : string)
         (partition : Z) (message : K.Message) (s : K.State),
    parses JSON_parse message ->
    let run := K.processMessage JSON_parse topic partition message s in
    fst run = JS.Ok tt /\
    K.processedMessages (snd run) = K.processedMessages s + 1 /\
    exists handled,
      K.out (snd run)
      = (K.out s
         ++ [K.LogKafkaEvent "MESSAGE_RECEIVED" topic partition
               (K.offset message) (K.key message)]
         ++ handled
         ++ [K.Console "REALTIME_DATA_PROCESSING"
               [("action", JS.VStr "MESSAGE_PROCESSED");
                ("topic", JS.VStr topic);
                ("partition", JS.VNum partition);
                ("offset", JS.VStr (K.offset message));
                ("key", JS.of_opt_string (K.key message));
                ("totalProcessed",
                 JS.VNum (K.processedMessages s + 1))]])%list.
Proof.
  intros JSON_parse topic partition message s Hparse run. subst run.
  assert (Hv : exists v, K.parse_value JSON_parse message
                         = Eff.ret v).
  { unfold K.parse_value.
    destruct Hparse as [-> | [text [v [-> ->]]]]; eauto. }
  destruct Hv as [v Hv].
  destruct (K.processMessage JSON_parse topic partition message s)
    as [rfinal sfinal] eqn:E.
  unfold K.processMessage, Eff.try_catch, Eff.bind at 1 in E.
  rewrite Hv in E. unfold Eff.ret at 1 in E.
  unfold Eff.bind at 1, Eff.modify at 1 in E.
  unfold Eff.bind at 1, K.emit at 1, Eff.modify at 1 in E.
  unfold Eff.bind at 1 in E.
  set (s2 := {| K.processedMessages := _; K.out := _ |}) in E.
  pose proof (dispatch_outcome topic v message s2) as H. cbv zeta in H.
  destruct ((if String.eqb topic "user-events"
             then K.processUserEvent v message
             else if String.eqb topic "database-events"
             then K.processDatabaseEvent v message
             else if String.eqb topic "system-logs"
             then K.processSystemLog v message
             else K.logSystemEvent "UNKNOWN_TOPIC_MESSAGE" "warn") s2)
    as [r s3].
  cbn [fst snd] in H. destruct H as [-> [Hcount [lines Hout]]].
  subst s2. destruct s3 as [n3 o3].
  cbn [K.processedMessages K.out] in Hcount, Hout. subst n3 o3.
  cbn in E. injection E as <- <-. cbn.
  split; [reflexivity |]. split; [reflexivity |].
  exists lines. now rewrite <- !app_assoc.
Qed.

Lemma parsed_message_counted_and_completed_witness :
  K.processedMessages
    (snd (K.processMessage parse_null_only "user-events" 2
            {| K.key := None; K.value_ := None;
               K.offset := "4"; K.timestamp := "1005" |}
            {| K.processedMessages := 0; K.out := [] |}))
  = 0 + 1.
Proof.
  apply (parsed_message_counted_and_completed parse_null_only "user-events" 2
           {| K.key := None; K.value_ := None;
              K.offset := "4"; K.timestamp := "1005" |}
           {| K.processedMessages := 0; K.out := [] |}).
  left. reflexivity.
Defined.

(** ** Batch summaries *)

Lemma nth_error_last (l : list K.Message) (m d : K.Message) :
  nth_error (m :: l) (length l) = Some (last (m :: l) d).
Proof.
  revert m. induction l as [| a l IH]; intros m; [reflexivity |].
  cbn [length nth_error].
  change (last (m :: a :: l) d) with (last (a :: l) d). apply IH.
Qed.

(** X19. [processBatch] returns for every batch, the empty one included,
    leaves the message counter alone and writes one summary line: the
    size of the batch, the offset of its first and of its last message
    (both [undefined] when the batch is empty) and the current count. *)
Theorem processBatch_summary :
  forall (batch : K.Batch) (s : K.State),
    K.processBatch batch s
    = (JS.Ok tt,
       {| K.processedMessages := K.processedMessages s;
          K.out :=
            (K.out s
             ++ [K.Console "BATCH_PROCESSING"
                   [("topic", JS.VStr (K.batch_topic batch));
                    ("partition", JS.VNum (K.batch_partition batch));
                    ("batchSize",
                     JS.VNum (Z.of_nat (length (K.messages batch))));
                    ("firstOffset",
                     match K.messages batch with
                     | [] => JS.VUndefined
                     | m :: _ => JS.VStr (K.offset m)
                     end);
                    ("lastOffset",
                     match K.messages batch with
                     | [] => JS.VUndefined
                     | m :: rest => JS.VStr (K.offset (last rest m))
                     end);
                    ("totalProcessed",
                     JS.VNum (K.processedMessages s))]])%list |}).
Proof.
  intros [topic partition msgs] s.
  unfold K.processBatch, Eff.bind, Eff.gets, K.emit, Eff.modify.
  cbn [K.messages K.batch_topic K.batch_partition].
  destruct msgs as [| m rest]; [reflexivity |].
  unfold K.offset_at at 2.
  replace (Z.of_nat (length (m :: rest)) - 1) with (Z.of_nat (length rest))
    by (cbn [length]; lia).
  destruct (Z.ltb_spec (Z.of_nat (length rest)) 0) as [Hneg | _]; [lia |].
  rewrite Nat2Z.id, (nth_error_last rest m m), last_cons.
  reflexivity.
Qed.

(* ================================================================== *)
(** * Properties of the life cycle *)
(* ================================================================== *)

Module L := Lifecycle.

(** ** Steps that leave the flags alone *)

(** A step that changes neither [isRunning] nor the timer. *)
Definition keeps_flags {A : Type} (m : Eff.M L.Service A) : Prop :=
  forall sv,
    L.isRunning (snd (m sv)) = L.isRunning sv /\
    L.timerArmed (snd (m sv)) = L.timerArmed sv.

Lemma keeps_ret {A : Type} (a : A) : keeps_flags (Eff.ret (S := L.Service) a).
Proof. intros sv. split; reflexivity. Qed.

Lemma keeps_throw {A : Type} (e : string) :
  keeps_flags (Eff.throw (S := L.Service) (A := A) e).
Proof. intros sv. split; reflexivity. Qed.

Lemma keeps_bind {A B : Type} (m : Eff.M L.Service A)
  (k : A -> Eff.M L.Service B) :
  keeps_flags m -> (forall a, keeps_flags (k a)) -> keeps_flags (Eff.bind m k).
Proof.
  intros Hm Hk sv. unfold Eff.bind. specialize (Hm sv).
  destruct (m sv) as [[a | e] sv1]; simpl in Hm.
  - destruct (Hk a sv1) as [H1 H2]. destruct Hm. split; congruence.
  - exact Hm.
Qed.

Lemma keeps_try {A : Type} (m : Eff.M L.Service A)
  (h : string -> Eff.M L.Service A) :
  keeps_flags m -> (forall e, keeps_flags (h e)) ->
  keeps_flags (Eff.try_catch m h).
Proof.
  intros Hm Hh sv. unfold Eff.try_catch. specialize (Hm sv).
  destruct (m sv) as [[a | e] sv1]; simpl in Hm.
  - exact Hm.
  - destruct (Hh e sv1) as [H1 H2]. destruct Hm. split; congruence.
Qed.

Lemma keeps_store_call (label : string) : keeps_flags (L.store_call label).
Proof.
  intros sv. unfold L.store_call.
  destruct (P.next_outcome _); split; reflexivity.
Qed.

Lemma keeps_broker_call : keeps_flags L.broker_call.
Proof.
  intros sv. unfold L.broker_call.
  destruct (P.next_outcome _); split; reflexivity.
Qed.

Lemma keeps_on_core {A : Type} (m : Eff.M P.State A) :
  keeps_flags (L.on_core m).
Proof.
  intros sv. unfold L.on_core. destruct (m (L.core sv)); split; reflexivity.
Qed.

Lemma keeps_for_of {A : Type} (xs : list A)
  (body : A -> Eff.M L.Service unit) :
  (forall x, keeps_flags (body x)) -> keeps_flags (Eff.for_of xs body).
Proof.
  intros Hb. induction xs as [| x xs IH]; cbn [Eff.for_of].
  - apply keeps_ret.
  - apply keeps_bind; [apply Hb | intros _; exact IH].
Qed.

Create HintDb flags.
#[local] Hint Resolve keeps_ret keeps_throw keeps_store_call
  keeps_broker_call keeps_on_core : flags.

Ltac keeps :=
  repeat first
    [ apply keeps_try; [| intros ?]
    | apply keeps_bind; [| intros ?]
    | apply keeps_for_of; intros ?
    | solve [unfold L.log; auto with flags] ].

Lemma keeps_connectDatabase : keeps_flags L.connectDatabase.
Proof. unfold L.connectDatabase. keeps. Qed.

Lemma keeps_createCDCTrackingTable : keeps_flags L.createCDCTrackingTable.
Proof. unfold L.createCDCTrackingTable. keeps. Qed.

Lemma keeps_createTableTriggers (t : string) :
  keeps_flags (L.createTableTriggers t).
Proof. unfold L.createTableTriggers. keeps. Qed.

Lemma keeps_createCDCTriggers : keeps_flags L.createCDCTriggers.
Proof.
  unfold L.createCDCTriggers.
  apply keeps_try; [| intros ?; keeps].
  apply keeps_bind; [| intros ?; keeps].
  apply keeps_for_of. apply keeps_createTableTriggers.
Qed.

(** ** Trigger creation *)

(** The statements attempted for one table: the three CREATE TRIGGER
    statements in order, up to and including the first that fails. *)
Definition table_attempt (t : string) (l : list (string * bool)) : Prop :=
  exists n,
    (1 <= n <= 3)%nat /\
    map fst l
    = firstn n [t ++ "_insert_trigger"; t ++ "_update_trigger";
                t ++ "_delete_trigger"] /\
    Forall (fun x => snd x = true) (removelast l) /\
    ((n < 3)%nat -> Forall (fun x => snd x = false) (skipn (n - 1) l)).

Lemma createTableTriggers_effect (t : string) (sv : L.Service) :
  fst (L.createTableTriggers t sv) = JS.Ok tt /\
  P.out (L.core (snd (L.createTableTriggers t sv))) = P.out (L.core sv) /\
  exists stmts,
    L.statements (snd (L.createTableTriggers t sv))
    = (L.statements sv ++ stmts)%list /\
    table_attempt t stmts.
Proof.
  unfold L.createTableTriggers, Eff.try_catch, Eff.bind, L.store_call,
    Eff.ret.
  destruct (P.next_outcome (P.db_outcomes (L.core sv))); cbn.
  - destruct (P.next_outcome (tl (P.db_outcomes (L.core sv)))); cbn.
    + destruct (P.next_outcome (tl (tl (P.db_outcomes (L.core sv))))); cbn;
        (split; [reflexivity |]); (split; [reflexivity |]);
        eexists; (split; [rewrite <- !app_assoc; reflexivity |]);
        exists 3%nat; cbn; repeat split; try lia; repeat constructor.
    + split; [reflexivity |]. split; [reflexivity |].
      eexists. split; [rewrite <- !app_assoc; reflexivity |].
      exists 2%nat. cbn. repeat split; try lia; repeat constructor.
  - split; [reflexivity |]. split; [reflexivity |].
    eexists. split; [reflexivity |].
    exists 1%nat. cbn. repeat split; try lia; repeat constructor.
Qed.

Lemma createCDCTriggers_effect :
  forall sv : L.Service,
    let sv' := snd (L.createCDCTriggers sv) in
    fst (L.createCDCTriggers sv) = JS.Ok tt /\
    P.out (L.core sv')
    = (P.out (L.core sv) ++ [P.LogSystemEvent "CDC_TRIGGERS_CREATED" "info"])%list
    /\
    exists s1 s2 s3,
      L.statements sv' = (L.statements sv ++ s1 ++ s2 ++ s3)%list /\
      table_attempt "users" s1 /\
      table_attempt "user_tokens" s2 /\
      table_attempt "user_activity_log" s3.
Proof.
  intros sv sv'. subst sv'.
  destruct (L.createCDCTriggers sv) as [r svf] eqn:E.
  unfold L.createCDCTriggers, Eff.try_catch in E.
  unfold Eff.bind at 1 in E.
  cbn [Eff.for_of L.monitored_tables] in E.
  unfold Eff.bind at 1 in E.
  pose proof (createTableTriggers_effect "users" sv) as H1.
  destruct (L.createTableTriggers "users" sv) as [r1 sv1].
  cbn [fst snd] in H1. destruct H1 as [-> [Ho1 [s1 [Hs1 Ht1]]]].
  unfold Eff.bind at 1 in E.
  pose proof (createTableTriggers_effect "user_tokens" sv1) as H2.
  destruct (L.createTableTriggers "user_tokens" sv1) as [r2 sv2].
  cbn [fst snd] in H2. destruct H2 as [-> [Ho2 [s2 [Hs2 Ht2]]]].
  unfold Eff.bind at 1 in E.
  pose proof (createTableTriggers_effect "user_activity_log" sv2) as H3.
  destruct (L.createTableTriggers "user_activity_log" sv2) as [r3 sv3].
  cbn [fst snd] in H3. destruct H3 as [-> [Ho3 [s3 [Hs3 Ht3]]]].
  cbn in E. injection E as <- <-. cbn.
  split; [reflexivity |]. split; [congruence |].
  exists s1, s2, s3. split; [| auto].
  rewrite Hs3, Hs2, Hs1. now rewrite <- !app_assoc.
Qed.

(** X20. [createCDCTriggers] never throws and always ends by logging
    CDC_TRIGGERS_CREATED, even when every statement failed: its own
    [catch] (CDC_TRIGGERS_ERROR) is never reached, because
    [createTableTriggers] absorbs the failures. For each of the three
    tables, in turn, the CREATE TRIGGER statements are attempted in
    order up to the first failure: a failure skips the rest of that
    table's triggers but not the next table. *)
Theorem triggers_always_reported_created :
  forall sv : L.Service,
    let sv' := snd (L.createCDCTriggers sv) in
    fst (L.createCDCTriggers sv) = JS.Ok tt /\
    P.out (L.core sv')
    = (P.out (L.core sv) ++ [P.LogSystemEvent "CDC_TRIGGERS_CREATED" "info"])%list
    /\
    exists s1 s2 s3,
      L.statements sv' = (L.statements sv ++ s1 ++ s2 ++ s3)%list /\
      table_attempt "users" s1 /\
      table_attempt "user_tokens" s2 /\
      table_attempt "user_activity_log" s3.
Proof. exact createCDCTriggers_effect. Qed.

(** The store refuses every statement: three attempts, all reported
    as created. *)
Example triggers_all_refused :
  let sv := {| L.core :=
                 {| P.db := []; P.lastProcessedId := 0;
                    P.changesProcessed := 0; P.sends := [];
                    P.send_outcomes := [];
                    P.db_outcomes := [false; false; false];
                    P.out := []; P.now := 1005 |};
               L.isRunning := false;
               L.timerArmed := false;
               L.statements := [] |} in
  L.statements (snd (L.createCDCTriggers sv))
  = [("users_insert_trigger", false);
     ("user_tokens_insert_trigger", false);
     ("user_activity_log_insert_trigger", false)] /\
  P.out (L.core (snd (L.createCDCTriggers sv)))
  = [P.LogSystemEvent "CDC_TRIGGERS_CREATED" "info"].
Proof. split; vm_compute; reflexivity. Qed.

(** ** Sequencing, by outcome *)

Section Sequencing.

Context {S A B : Type}.
Variable m : Eff.M S A.
Variable s : S.

Lemma bind_ok (k : A -> Eff.M S B) (a : A) :
  fst (m s) = JS.Ok a -> Eff.bind m k s = k a (snd (m s)).
Proof. unfold Eff.bind. destruct (m s) as [r s1]. simpl. now intros ->. Qed.

Lemma bind_throw (k : A -> Eff.M S B) (e : string) :
  fst (m s) = JS.Throw e -> Eff.bind m k s = (JS.Throw e, snd (m s)).
Proof. unfold Eff.bind. destruct (m s) as [r s1]. simpl. now intros ->. Qed.

Lemma try_ok (h : string -> Eff.M S A) (a : A) :
  fst (m s) = JS.Ok a -> Eff.try_catch m h s = (JS.Ok a, snd (m s)).
Proof.
  unfold Eff.try_catch. destruct (m s) as [r s1]. simpl. now intros ->.
Qed.

Lemma try_throw (h : string -> Eff.M S A) (e : string) :
  fst (m s) = JS.Throw e -> Eff.try_catch m h s = h e (snd (m s)).
Proof.
  unfold Eff.try_catch. destruct (m s) as [r s1]. simpl. now intros ->.
Qed.

End Sequencing.

(** ** Start *)

Lemma initialize_returns (s : P.State) :
  fst (P.initializeLastProcessedIds s) = JS.Ok tt.
Proof.
  unfold P.initializeLastProcessedIds, Eff.try_catch, Eff.bind,
    P.db_max_processed.
  destruct (P.next_outcome (P.db_outcomes s)); reflexivity.
Qed.

(** [connectDatabase] succeeds exactly when the store accepts the
    connection and the USE statement, its next two calls. *)
Lemma connectDatabase_effect (sv : L.Service) :
  let d := P.db_outcomes (L.core sv) in
  let run := L.connectDatabase sv in
  if P.next_outcome d && P.next_outcome (tl d)
  then fst run = JS.Ok tt /\
       P.db_outcomes (L.core (snd run)) = tl (tl d) /\
       P.send_outcomes (L.core (snd run)) = P.send_outcomes (L.core sv)
  else exists e, fst run = JS.Throw e.
Proof.
  cbv zeta.
  unfold L.connectDatabase, Eff.try_catch, Eff.bind, L.store_call, L.log,
    L.on_core, P.logSystemEvent, P.console_log, Eff.modify, Eff.throw.
  destruct (P.next_outcome (P.db_outcomes (L.core sv))); cbn.
  - destruct (P.next_outcome (tl (P.db_outcomes (L.core sv)))); cbn; eauto.
  - eauto.
Qed.

(** The store and the broker accept the four calls [start] depends on:
    the connection, the USE statement, the producer's connection and
    the creation of the change-log table. *)
Definition start_ready (sv : L.Service) : bool :=
  let d := P.db_outcomes (L.core sv) in
  P.next_outcome d && P.next_outcome (tl d)
  && P.next_outcome (P.send_outcomes (L.core sv))
  && P.next_outcome (tl (tl d)).

(** The second half of [start], from trigger creation on. *)
Definition start_tail : Eff.M L.Service unit :=
  Eff.bind L.createCDCTriggers (fun _ =>
  Eff.bind (L.on_core P.initializeLastProcessedIds) (fun _ =>
  Eff.bind (Eff.modify (L.with_isRunning true)) (fun _ =>
  Eff.bind (L.log "CDC_SERVICE_STARTED" "info") (fun _ =>
  L.startPolling)))).

Lemma start_tail_effect (sv : L.Service) :
  fst (start_tail sv) = JS.Ok tt /\
  L.isRunning (snd (start_tail sv)) = true /\
  L.timerArmed (snd (start_tail sv)) = true.
Proof.
  unfold start_tail.
  destruct (createCDCTriggers_effect sv) as [Hok _].
  rewrite (bind_ok _ _ _ tt Hok).
  set (sv1 := snd (L.createCDCTriggers sv)).
  assert (Hinit : fst (L.on_core P.initializeLastProcessedIds sv1) = JS.Ok tt).
  { unfold L.on_core.
    pose proof (initialize_returns (L.core sv1)) as H.
    destruct (P.initializeLastProcessedIds (L.core sv1)). exact H. }
  rewrite (bind_ok _ _ _ tt Hinit).
  set (sv2 := snd (L.on_core P.initializeLastProcessedIds sv1)).
  unfold Eff.bind, Eff.modify, L.log, L.on_core, P.logSystemEvent,
    P.console_log, L.startPolling. cbn. repeat split.
Qed.

Lemma broker_call_effect (sv : L.Service) :
  P.db_outcomes (L.core (snd (L.broker_call sv)))
  = P.db_outcomes (L.core sv) /\
  if P.next_outcome (P.send_outcomes (L.core sv))
  then fst (L.broker_call sv) = JS.Ok tt
  else exists e, fst (L.broker_call sv) = JS.Throw e.
Proof.
  unfold L.broker_call.
  destruct (P.next_outcome (P.send_outcomes (L.core sv))); cbn; eauto.
Qed.

Lemma log_effect (event level : string) (sv : L.Service) :
  fst (L.log event level sv) = JS.Ok tt /\
  P.db_outcomes (L.core (snd (L.log event level sv)))
  = P.db_outcomes (L.core sv) /\
  P.out (L.core (snd (L.log event level sv)))
  = (P.out (L.core sv) ++ [P.LogSystemEvent event level])%list /\
  L.isRunning (snd (L.log event level sv)) = L.isRunning sv /\
  L.timerArmed (snd (L.log event level sv)) = L.timerArmed sv.
Proof. repeat split. Qed.

Lemma createCDCTrackingTable_effect (sv : L.Service) :
  if P.next_outcome (P.db_outcomes (L.core sv))
  then fst (L.createCDCTrackingTable sv) = JS.Ok tt
  else exists e, fst (L.createCDCTrackingTable sv) = JS.Throw e.
Proof.
  unfold L.createCDCTrackingTable, Eff.try_catch, Eff.bind, L.store_call.
  destruct (P.next_outcome (P.db_outcomes (L.core sv))); cbn; eauto.
Qed.

(** The first half of [start]: the four calls it depends on. *)
Definition start_head (tail : Eff.M L.Service unit) : Eff.M L.Service unit :=
  Eff.bind L.connectDatabase (fun _ =>
  Eff.bind L.broker_call (fun _ =>
  Eff.bind (L.log "CDC_KAFKA_CONNECTED" "info") (fun _ =>
  Eff.bind L.createCDCTrackingTable (fun _ => tail)))).

Lemma start_unfold :
  L.start
  = Eff.try_catch (start_head start_tail)
      (fun error =>
         Eff.bind (L.log "CDC_START_ERROR" "error")
                  (fun _ => Eff.throw error)).
Proof. reflexivity. Qed.

Lemma start_head_effect (tail : Eff.M L.Service unit) (sv : L.Service) :
  if start_ready sv
  then exists sv1, start_head tail sv = tail sv1
  else exists e sv1,
         start_head tail sv = (JS.Throw e, sv1) /\
         L.isRunning sv1 = L.isRunning sv /\
         L.timerArmed sv1 = L.timerArmed sv.
Proof.
  unfold start_ready, start_head.
  pose proof (connectDatabase_effect sv) as Hc. cbv zeta in Hc.
  destruct (keeps_connectDatabase sv) as [Hr1 Ht1].
  set (sv1 := snd (L.connectDatabase sv)) in *.
  destruct (P.next_outcome (P.db_outcomes (L.core sv))
            && P.next_outcome (tl (P.db_outcomes (L.core sv)))).
  2: { destruct Hc as [e He]. cbn [andb].
       exists e, sv1. rewrite (bind_throw _ _ _ e He). auto. }
  destruct Hc as [Hok [Hd Hb]]. rewrite (bind_ok _ _ _ tt Hok). fold sv1.
  pose proof (broker_call_effect sv1) as [Hd2 Hbr].
  destruct (keeps_broker_call sv1) as [Hr2 Ht2].
  set (sv2 := snd (L.broker_call sv1)) in *.
  rewrite Hb in Hbr.
  destruct (P.next_outcome (P.send_outcomes (L.core sv))).
  2: { destruct Hbr as [e He]. cbn [andb].
       exists e, sv2. rewrite (bind_throw _ _ _ e He). split; [reflexivity |].
       split; congruence. }
  rewrite (bind_ok _ _ _ tt Hbr). fold sv2.
  destruct (log_effect "CDC_KAFKA_CONNECTED" "info" sv2)
    as [Hl [Hd3 [_ [Hr3 Ht3]]]].
  rewrite (bind_ok _ _ _ tt Hl).
  set (sv3 := snd (L.log "CDC_KAFKA_CONNECTED" "info" sv2)) in *.
  pose proof (createCDCTrackingTable_effect sv3) as Htab.
  destruct (keeps_createCDCTrackingTable sv3) as [Hr4 Ht4].
  set (sv4 := snd (L.createCDCTrackingTable sv3)) in *.
  rewrite Hd3, Hd2, Hd in Htab. cbn [andb].
  destruct (P.next_outcome (tl (tl (P.db_outcomes (L.core sv))))).
  - rewrite (bind_ok _ _ _ tt Htab). fold sv4. eauto.
  - destruct Htab as [e He].
    exists e, sv4. rewrite (bind_throw _ _ _ e He). split; [reflexivity |].
    split; congruence.
Qed.

(** X21. [start] returns exactly when the store accepts the connection,
    the USE statement and the creation of the change-log table and the
    broker accepts the producer's connection; the service is then
    running with its timer armed, whatever became of the triggers and
    of the cursor query. Otherwise [start] throws: the flags are as
    before and the last line written is CDC_START_ERROR. *)
Theorem start_outcome :
  forall sv : L.Service,
    (fst (L.start sv) = JS.Ok tt <-> start_ready sv = true) /\
    (start_ready sv = true ->
     L.isRunning (snd (L.start sv)) = true /\
     L.timerArmed (snd (L.start sv)) = true) /\
    (start_ready sv = false ->
     L.isRunning (snd (L.start sv)) = L.isRunning sv /\
     L.timerArmed (snd (L.start sv)) = L.timerArmed sv /\
     exists before,
       P.out (L.core (snd (L.start sv)))
       = (before ++ [P.LogSystemEvent "CDC_START_ERROR" "error"])%list).
Proof.
  intros sv. rewrite start_unfold.
  pose proof (start_head_effect start_tail sv) as H.
  destruct (start_ready sv).
  - destruct H as [sv1 H].
    destruct (start_tail_effect sv1) as [Hok [Hr Ht]].
    assert (Hhead : fst (start_head start_tail sv) = JS.Ok tt)
      by now rewrite H.
    rewrite (try_ok _ _ _ tt Hhead), H. cbn [fst snd].
    split; [tauto |]. split; [auto | discriminate].
  - destruct H as [e [sv1 [H [Hr Ht]]]].
    assert (Hhead : fst (start_head start_tail sv) = JS.Throw e)
      by now rewrite H.
    rewrite (try_throw _ _ _ e Hhead), H. cbn.
    split; [split; discriminate |]. split; [discriminate |].
    intros _. split; [exact Hr |]. split; [exact Ht |]. eauto.
Qed.

(** A store that refuses the creation of the change-log table. *)
Definition table_refused : L.Service :=
  {| L.core :=
       {| P.db := []; P.lastProcessedId := 0;
          P.changesProcessed := 0; P.sends := [];
          P.send_outcomes := [];
          P.db_outcomes := [true; true; false];
          P.out := []; P.now := 1005 |};
     L.isRunning := false;
     L.timerArmed := false;
     L.statements := [] |}.

Lemma start_outcome_witness :
  L.isRunning (snd (L.start table_refused)) = false.
Proof.
  destruct (start_outcome table_refused) as [_ [_ H]].
  destruct (H eq_refl) as [Hr _]. exact Hr.
Defined.

Example start_with_no_triggers :
  let sv := {| L.core :=
                 {| P.db := [user_insert]; P.lastProcessedId := 5;
                    P.changesProcessed := 0; P.sends := [];
                    P.send_outcomes := [];
                    P.db_outcomes := [true; true; true; false; false; false];
                    P.out := []; P.now := 1005 |};
               L.isRunning := false;
               L.timerArmed := false;
               L.statements := [] |} in
  fst (L.start sv) = JS.Ok tt /\
  L.isRunning (snd (L.start sv)) = true /\
  P.lastProcessedId (L.core (snd (L.start sv))) = 0 /\
  P.out (L.core (snd (L.start sv)))
  = [P.LogSystemEvent "CDC_DATABASE_CONNECTED" "info";
     P.LogSystemEvent "CDC_KAFKA_CONNECTED" "info";
     P.LogSystemEvent "CDC_TRACKING_TABLE_CREATED" "info";
     P.LogSystemEvent "CDC_TRIGGERS_CREATED" "info";
     P.LogSystemEvent "CDC_INITIALIZED" "info";
     P.LogSystemEvent "CDC_SERVICE_STARTED" "info"].
Proof. repeat split; vm_compute; reflexivity. Qed.

(** ** Stop and the pending timer *)

Lemma on_timer_effect (sv : L.Service) :
  fst (L.on_timer sv) = JS.Ok tt /\
  L.core (snd (L.on_timer sv)) = P.cycle (L.core sv) /\
  L.isRunning (snd (L.on_timer sv)) = L.isRunning sv /\
  L.timerArmed (snd (L.on_timer sv)) = L.isRunning sv /\
  L.statements (snd (L.on_timer sv)) = L.statements sv.
Proof.
  destruct sv as [c0 run armed st].
  unfold L.on_timer, Eff.bind, Eff.modify, Eff.try_catch, L.on_core,
    L.startPolling, P.cycle.
  cbn [L.core L.with_timerArmed fst snd].
  destruct (cycle_effect c0) as [Hok _].
  destruct (P.pollForChanges c0) as [r c]. simpl in Hok. subst r.
  cbn. destruct run; repeat split.
Qed.

Lemma stop_flags (sv : L.Service) :
  L.isRunning sv = true ->
  L.isRunning (snd (L.stop sv)) = false /\
  L.timerArmed (snd (L.stop sv)) = L.timerArmed sv.
Proof.
  intros Hrun. unfold L.stop. rewrite Hrun.
  unfold Eff.bind at 1, Eff.modify at 1.
  assert (Hk : keeps_flags
                 (Eff.bind L.broker_call (fun _ =>
                  Eff.bind (L.store_call "end") (fun _ =>
                  L.log "CDC_SERVICE_STOPPED" "info")))) by keeps.
  destruct (Hk (L.with_isRunning false sv)) as [H1 H2].
  split; [exact H1 | exact H2].
Qed.

(** While the service runs, each expiration of the timer is one cycle
    of the polling loop and arms the timer again. *)
Lemma running_expirations (n : nat) :
  forall sv : L.Service,
    L.isRunning sv = true ->
    L.timerArmed sv = true ->
    L.core (L.expirations n sv) = after_ticks n (L.core sv) /\
    L.isRunning (L.expirations n sv) = true /\
    L.timerArmed (L.expirations n sv) = true.
Proof.
  induction n as [| n IH]; intros sv Hrun Harmed; [auto |].
  cbn [L.expirations]. unfold L.expire. rewrite Harmed.
  destruct (on_timer_effect sv) as [_ [Hc [Hr [Ht _]]]].
  rewrite after_ticks_S, <- Hc. apply IH; congruence.
Qed.

Lemma disarmed_expirations (n : nat) :
  forall sv : L.Service,
    L.timerArmed sv = false -> L.expirations n sv = sv.
Proof.
  induction n as [| n IH]; intros sv Hoff; [reflexivity |].
  cbn [L.expirations]. unfold L.expire. rewrite Hoff. now apply IH.
Qed.

(** X22. [stop] clears [isRunning] but does not cancel the polling
    timer, even when the disconnection throws: if the timer is armed,
    its next expiration still runs one full [pollForChanges] after the
    service has stopped, and only then is the timer left unarmed, so
    that any number of expirations after [stop] amounts to exactly one
    more cycle. A second [stop] does nothing. *)
Theorem stop_leaves_one_poll :
  forall sv : L.Service,
    L.isRunning sv = true ->
    L.timerArmed sv = true ->
    let stopped := snd (L.stop sv) in
    let fired := snd (L.on_timer stopped) in
    L.isRunning stopped = false /\
    L.timerArmed stopped = true /\
    L.stop stopped = (JS.Ok tt, stopped) /\
    L.core fired = P.cycle (L.core stopped) /\
    L.isRunning fired = false /\
    L.timerArmed fired = false /\
    (forall n, L.expirations (S n) stopped = fired).
Proof.
  intros sv Hrun Harmed stopped fired.
  destruct (stop_flags sv Hrun) as [H1 H2]. fold stopped in H1, H2.
  destruct (on_timer_effect stopped) as [_ [Hc [Hr [Ht _]]]].
  fold fired in Hc, Hr, Ht.
  assert (Hoff : L.timerArmed fired = false) by congruence.
  repeat split; try congruence.
  - unfold L.stop. now rewrite H1.
  - intros n. cbn [L.expirations]. unfold L.expire.
    rewrite H2, Harmed. fold fired. now apply disarmed_expirations.
Qed.

(** A running service with its timer armed and one row to publish; the
    store accepts the closing of the connection and refuses what
    comes after. *)
Definition running : L.Service :=
  {| L.core :=
       {| P.db := [user_insert]; P.lastProcessedId := 0;
          P.changesProcessed := 0; P.sends := [];
          P.send_outcomes := [];
          P.db_outcomes := [true; false];
          P.out := []; P.now := 1005 |};
     L.isRunning := true;
     L.timerArmed := true;
     L.statements := [] |}.

Lemma stop_leaves_one_poll_witness :
  L.core (snd (L.on_timer (snd (L.stop running))))
  = P.cycle (L.core (snd (L.stop running))).
Proof.
  destruct (stop_leaves_one_poll running eq_refl eq_refl)
    as [_ [_ [_ [H _]]]].
  exact H.
Defined.

Example poll_after_stop :
  let fired := snd (L.on_timer (snd (L.stop running))) in
  P.out (L.core fired)
  = [P.LogSystemEvent "CDC_SERVICE_STOPPED" "info";
     P.LogSystemEvent "CDC_POLL_ERROR" "error"] /\
  L.statements fired = [("end", true)] /\
  L.timerArmed fired = false.
Proof. repeat split; vm_compute; reflexivity. Qed.
